(** * The nearby-places resolver of [main.py], embedded in Rocq

    The handler [nearby] of [src/project/main.py] is modelled as it is
    written: the f-string query table, the closures [haversine] and
    [friendly_name], the [try] block that walks the upstream elements with
    the list [places] and the set [seen], the stable sort and the slice,
    and the [except Exception] that turns every failure into an error
    response. The accounts follow: the table and the three helpers of
    [src/project/database.py], and the page handlers of [main.py] that
    use them ([signup], [login], [dashboard], [disabled], [senior]).

    Conventions.
    - A Python value decoded by [resp.json()] is a [json] tree; a [dict] is
      an association list read by its first binding for a key.
    - A Python [float] is a binary64 number: the primitive type [float].
    - Code that can raise runs in the error monad [result]; the message of
      an exception is what [str(e)] returns in CPython 3.
    - What the handler calls but does not define (libm behind [math.sin],
      [math.cos], [math.atan2], float power, [repr] of a float and
      [str.title]) is the interface [PyRuntime]; [bcrypt] is the
      interface [Bcrypt].
    - The table [users] is the list of its rows; a page handler returns
      an [outcome]: a response, or what it raises. *)

From Stdlib Require Import ZArith List String Ascii Bool Lia Floats.
From Stdlib Require Import Sorted Permutation DecimalString.
Import ListNotations.

Local Open Scope string_scope.
Local Open Scope Z_scope.

Set Warnings "-register-all,-inexact-float".

(** ** Exceptions and the error monad *)

Inductive exn_class : Set :=
  | KeyError
  | AttributeError
  | TypeError
  | ValueError
  | OverflowError
  | ZeroDivisionError
  | TransportError       (* httpx.TransportError and its subclasses, raised by httpx.post *)
  | HTTPStatusError      (* raised by resp.raise_for_status() *)
  | JSONDecodeError.     (* raised by resp.json() *)

(** [exn_msg e] is [str(e)]. *)
Record exn : Set := mk_exn { exn_cls : exn_class; exn_msg : string }.

Inductive result (A : Type) : Type :=
  | Ok (a : A)
  | Raise (e : exn).

Arguments Ok {A} a.
Arguments Raise {A} e.

Definition bind {A B : Type} (c : result A) (k : A -> result B) : result B :=
  match c with
  | Ok a => k a
  | Raise e => Raise e
  end.

Notation "x <- c ;; k" := (bind c (fun x => k))
  (at level 61, c at next level, right associativity).
Notation "' pat <- c ;; k" := (bind c (fun x => match x with pat => k end))
  (at level 61, pat pattern, c at next level, right associativity).

(** ** Python values, as [json.loads] builds them *)

Inductive json : Type :=
  | JNull
  | JBool (b : bool)
  | JInt (z : Z)
  | JFloat (f : float)
  | JStr (s : string)
  | JList (l : list json)
  | JDict (d : list (string * json)).

Definition type_name (v : json) : string :=
  match v with
  | JNull => "NoneType"
  | JBool _ => "bool"
  | JInt _ => "int"
  | JFloat _ => "float"
  | JStr _ => "str"
  | JList _ => "list"
  | JDict _ => "dict"
  end.

Definition squote : string := "'".

Definition quoted (s : string) : string := squote ++ s ++ squote.

(** [dict_get d k] is the value bound to [k], if any. *)
Fixpoint dict_get (d : list (string * json)) (k : string) : option json :=
  match d with
  | [] => None
  | (k', v) :: d' => if String.eqb k' k then Some v else dict_get d' k
  end.

(** [o.get(k, default)]: only a dict has the method. *)
Definition py_get (o : json) (k : string) (default : json) : result json :=
  match o with
  | JDict d =>
      match dict_get d k with
      | Some v => Ok v
      | None => Ok default
      end
  | _ => Raise (mk_exn AttributeError
                 (quoted (type_name o) ++ " object has no attribute 'get'"))
  end.

(** [o[k]] for a string key [k]. *)
Definition py_getitem (o : json) (k : string) : result json :=
  match o with
  | JDict d =>
      match dict_get d k with
      | Some v => Ok v
      | None => Raise (mk_exn KeyError (quoted k))
      end
  | JList _ =>
      Raise (mk_exn TypeError "list indices must be integers or slices, not str")
  | JStr _ =>
      Raise (mk_exn TypeError "string indices must be integers, not 'str'")
  | _ => Raise (mk_exn TypeError
                 (quoted (type_name o) ++ " object is not subscriptable"))
  end.

(** Truth value of an object, as [if x:], [not x] and [or] test it. *)
Definition truthy (v : json) : bool :=
  match v with
  | JNull => false
  | JBool b => b
  | JInt z => negb (z =? 0)
  | JFloat f => negb (f =? 0)%float
  | JStr s => negb (String.eqb s "")
  | JList l => match l with [] => false | _ => true end
  | JDict d => match d with [] => false | _ => true end
  end.

(** [v == s] for a string literal [s]: only an equal string is equal. *)
Definition eq_str (v : json) (s : string) : bool :=
  match v with
  | JStr s' => String.eqb s' s
  | _ => false
  end.

Fixpoint chars (s : string) : list json :=
  match s with
  | EmptyString => []
  | String c s' => JStr (String c EmptyString) :: chars s'
  end.

(** The items a [for] loop over [v] visits: the items of a list, the keys of
    a dict, the characters of a string. *)
Definition py_iter (v : json) : result (list json) :=
  match v with
  | JList l => Ok l
  | JDict d => Ok (map (fun kv => JStr (fst kv)) d)
  | JStr s => Ok (chars s)
  | _ => Raise (mk_exn TypeError (quoted (type_name v) ++ " object is not iterable"))
  end.

(** [a or b]. *)
Definition py_or (a b : json) : json := if truthy a then a else b.

(** ** Numbers

    A query coordinate is a Python [float]; a coordinate read from the
    payload is whatever number JSON gave: an [int], a [float], or a
    [bool] (which Python counts as the integers 0 and 1). *)

Definition pi : float := 0x1.921fb54442d18p+1%float.

(** [math.radians(x)] multiplies by the constant [pi / 180.0]. *)
Definition degToRad : float := (pi / 180)%float.

Definition radians (x : float) : float := (x * degToRad)%float.

(** Conversion of an [int] operand to [float]: correctly rounded, and an
    error when the integer is beyond the float range. *)
Definition float_of_int (z : Z) : result float :=
  match binary_normalize prec emax z 0 false with
  | S754_infinity _ =>
      Raise (mk_exn OverflowError "int too large to convert to float")
  | sf => Ok (SF2Prim sf)
  end.

Definition int_of_bool (b : bool) : Z := if b then 1 else 0.

(** [v - x] for a float [x]. *)
Definition py_sub (v : json) (x : float) : result float :=
  match v with
  | JFloat f => Ok (f - x)%float
  | JInt z => f <- float_of_int z ;; Ok (f - x)%float
  | JBool b => f <- float_of_int (int_of_bool b) ;; Ok (f - x)%float
  | _ => Raise (mk_exn TypeError
                 ("unsupported operand type(s) for -: " ++ quoted (type_name v)
                  ++ " and 'float'"))
  end.

(** [math.radians(v)]. *)
Definition math_radians (v : json) : result float :=
  match v with
  | JFloat f => Ok (radians f)
  | JInt z => f <- float_of_int z ;; Ok (radians f)
  | JBool b => f <- float_of_int (int_of_bool b) ;; Ok (radians f)
  | _ => Raise (mk_exn TypeError ("must be real number, not " ++ type_name v))
  end.

(** [math.sqrt(x)]: the IEEE square root, with the domain check of the
    [math] module (a NaN result from a non-NaN argument is an error). *)
Definition math_sqrt (x : float) : result float :=
  let r := sqrt x in
  if is_nan r && negb (is_nan x)
  then Raise (mk_exn ValueError "math domain error")
  else Ok r.

(** [int(x)] for a float [x]: truncation towards zero. *)
Definition int_of_float (x : float) : result Z :=
  match Prim2SF x with
  | S754_nan => Raise (mk_exn ValueError "cannot convert float NaN to integer")
  | S754_infinity _ =>
      Raise (mk_exn OverflowError "cannot convert float infinity to integer")
  | S754_zero _ => Ok 0
  | S754_finite s m e =>
      let a := if 0 <=? e then Z.shiftl (Zpos m) e else Z.shiftr (Zpos m) (- e) in
      Ok (if s then - a else a)
  end.

(** The integer nearest to [num / den] ([den > 0]), ties to the even one. *)
Definition round_half_even (num den : Z) : Z :=
  let q := num / den in
  match (2 * (num mod den)) ?= den with
  | Lt => q
  | Gt => q + 1
  | Eq => if Z.even q then q else q + 1
  end.

(** [round(x, 4)] for a float [x]: the exact value of [x] is rounded to a
    multiple of 1/10000 (ties to even), and the result is the float
    nearest to that decimal. NaN and the infinities round to themselves. *)
Definition round4 (x : float) : float :=
  match Prim2SF x with
  | S754_finite s m e =>
      let n := if 0 <=? e
               then Zpos m * 2 ^ e * 10000
               else round_half_even (Zpos m * 10000) (2 ^ (- e)) in
      match n with
      | Zpos p => SF2Prim (SFdiv prec emax (S754_finite s p 0)
                                            (S754_finite false 10000 0))
      | _ => SF2Prim (S754_zero s)
      end
  | _ => x
  end.

(** A number as the builtin [round] returns it. *)
Inductive pynum : Type :=
  | PInt (z : Z)
  | PFloat (f : float).

(** [round(v, 4)]: an [int] (or [bool]) rounds to itself as an [int]. *)
Definition py_round4 (v : json) : result pynum :=
  match v with
  | JInt z => Ok (PInt z)
  | JBool b => Ok (PInt (int_of_bool b))
  | JFloat f => Ok (PFloat (round4 f))
  | _ => Raise (mk_exn TypeError
                 ("type " ++ type_name v ++ " doesn't define __round__ method"))
  end.

(** The exact value of a number, for Python's [==] between numbers, which
    compares an [int] and a [float] by value: a finite non-zero value is
    [(-1)^neg * m * 2^e] with [m] odd. *)
Inductive numval : Set :=
  | VNaN
  | VInf (neg : bool)
  | VZero
  | VFin (neg : bool) (m : positive) (e : Z).

Fixpoint odd_part (m : positive) (e : Z) : positive * Z :=
  match m with
  | xO p => odd_part p (e + 1)
  | _ => (m, e)
  end.

Definition val_of_float (f : float) : numval :=
  match Prim2SF f with
  | S754_nan => VNaN
  | S754_infinity s => VInf s
  | S754_zero _ => VZero
  | S754_finite s m e => let '(m', e') := odd_part m e in VFin s m' e'
  end.

Definition val_of_int (z : Z) : numval :=
  match z with
  | Z0 => VZero
  | Zpos p => let '(m, e) := odd_part p 0 in VFin false m e
  | Zneg p => let '(m, e) := odd_part p 0 in VFin true m e
  end.

Definition num_val (n : pynum) : numval :=
  match n with
  | PInt z => val_of_int z
  | PFloat f => val_of_float f
  end.

Definition numval_eqb (a b : numval) : bool :=
  match a, b with
  | VInf s, VInf t => Bool.eqb s t
  | VZero, VZero => true
  | VFin s m e, VFin t m' e' => Bool.eqb s t && Pos.eqb m m' && Z.eqb e e'
  | _, _ => false      (* NaN equals nothing, itself included *)
  end.

(** [a == b] on numbers. *)
Definition num_eq (a b : pynum) : bool := numval_eqb (num_val a) (num_val b).

(** The tuple [(round(elat, 4), round(elng, 4))] and tuple equality. *)
Definition coord_key : Type := pynum * pynum.

Definition key_eq (a b : coord_key) : bool :=
  num_eq (fst a) (fst b) && num_eq (snd a) (snd b).

(** [coord_key in seen]. *)
Definition key_in (k : coord_key) (seen : list coord_key) : bool :=
  existsb (key_eq k) seen.

(** ** What the handler imports

    The handler's arithmetic on floats is IEEE arithmetic and is modelled
    above. The functions below are the platform's: [math.sin], [math.cos]
    and [math.atan2] (libm behind the [math] module's error checks),
    [x ** n] for a float [x] and an [int] [n], the [repr] of a float that
    an f-string inserts, and [str.title]. *)
Class PyRuntime : Type := {
  math_sin : float -> result float;
  math_cos : float -> result float;
  math_atan2 : float -> float -> result float;
  float_pow : float -> Z -> result float;
  float_repr : float -> string;
  str_title : string -> string
}.

(** ** The query text *)

Definition dquote : string := String (ascii_of_nat 34) EmptyString.
Definition newline : string := String (ascii_of_nat 10) EmptyString.

Definition str_int (z : Z) : string := NilZero.string_of_int (Z.to_int z).

(** One tag-match clause of the query language: [elem[key op value]]. *)
Inductive tag_op : Set := OpEq | OpMatch.

Record clause : Set := mk_clause {
  c_elem : string;
  c_key : string;
  c_op : tag_op;
  c_value : string
}.

Definition op_text (o : tag_op) : string :=
  match o with OpEq => "=" | OpMatch => "~" end.

Definition node_eq (k v : string) : clause := mk_clause "node" k OpEq v.
Definition way_eq (k v : string) : clause := mk_clause "way" k OpEq v.

Definition elevator_clauses : list clause :=
  [ node_eq "highway" "elevator"; node_eq "amenity" "elevator";
    node_eq "building" "elevator"; node_eq "amenity" "hospital";
    way_eq "amenity" "hospital"; node_eq "amenity" "clinic";
    node_eq "amenity" "mall"; way_eq "shop" "mall" ].

Definition rest_clauses : list clause :=
  [ node_eq "amenity" "bench"; node_eq "leisure" "park";
    way_eq "leisure" "park"; node_eq "amenity" "shelter";
    node_eq "tourism" "picnic_site"; node_eq "amenity" "cafe";
    node_eq "amenity" "restaurant" ].

Definition washroom_clauses : list clause :=
  [ node_eq "amenity" "toilets"; way_eq "amenity" "toilets";
    node_eq "amenity" "hospital"; way_eq "amenity" "hospital";
    node_eq "amenity" "clinic"; node_eq "amenity" "pharmacy";
    node_eq "shop" "mall"; way_eq "shop" "mall";
    node_eq "amenity" "cafe"; node_eq "amenity" "restaurant" ].

Definition hospital_clauses : list clause :=
  [ node_eq "amenity" "hospital"; way_eq "amenity" "hospital";
    node_eq "amenity" "clinic"; node_eq "amenity" "pharmacy";
    node_eq "amenity" "doctors"; node_eq "amenity" "health_centre" ].

Definition all_clauses : list clause :=
  [ mk_clause "node" "amenity" OpMatch
      "hospital|clinic|pharmacy|toilets|bench|shelter|cafe|restaurant|doctors";
    mk_clause "way" "amenity" OpMatch "hospital|clinic";
    node_eq "leisure" "park"; way_eq "leisure" "park";
    node_eq "highway" "elevator" ].

(** The clause sets of [queries_map], by filter value, in the order of the
    dict literal. *)
Definition clause_table : list (string * list clause) :=
  [ ("elevator", elevator_clauses); ("rest", rest_clauses);
    ("washroom", washroom_clauses); ("hospital", hospital_clauses);
    ("all", all_clauses) ].

Fixpoint assoc_get {A : Type} (m : list (string * A)) (k : string) : option A :=
  match m with
  | [] => None
  | (k', v) :: m' => if String.eqb k' k then Some v else assoc_get m' k
  end.

(** [queries_map.get(filter, queries_map["all"])], on clause sets. *)
Definition clauses_for (filter : string) : list clause :=
  match assoc_get clause_table filter with
  | Some cs => cs
  | None => all_clauses
  end.

Section Handler.

Context {rt : PyRuntime}.

(** The 2 km radius [r] of the handler. *)
Definition r : Z := 2000.

(** The handler's arguments: [lat] and [lng]. *)
Variables lat lng : float.

(** One line of an f-string of [queries_map]:
    [elem["key"op"value"](around:{r},{lat},{lng});]. *)
Definition clause_text (c : clause) : string :=
  c_elem c ++ "[" ++ dquote ++ c_key c ++ dquote ++ op_text (c_op c)
    ++ dquote ++ c_value c ++ dquote ++ "](around:" ++ str_int r ++ ","
    ++ float_repr lat ++ "," ++ float_repr lng ++ ");".

Definition indent12 : string := "            ".
Definition indent8 : string := "        ".

(** A triple-quoted f-string of [queries_map]: a newline, the indented
    clause lines, and the indentation of the closing quotes. *)
Definition block_text (cs : list clause) : string :=
  newline
    ++ concat "" (map (fun c => indent12 ++ clause_text c ++ newline) cs)
    ++ indent8.

Definition queries_map : list (string * string) :=
  map (fun kv => (fst kv, block_text (snd kv))) clause_table.

(** [inner = queries_map.get(filter, queries_map["all"])]. *)
Definition inner (filter : string) : string :=
  match assoc_get queries_map filter with
  | Some q => q
  | None => block_text all_clauses
  end.

Definition build_query (filter : string) : string :=
  "[out:json][timeout:20];" ++ newline ++ "(" ++ newline ++ inner filter
    ++ newline ++ ");" ++ newline ++ "out center 30;".

(** ** [haversine] *)

(** Earth radius in metres. *)
Definition R : Z := 6371000.

Definition haversine (elat elng : json) : result Z :=
  d1 <- py_sub elat lat ;;
  let dlat := radians d1 in
  d2 <- py_sub elng lng ;;
  let dlon := radians d2 in
  s1 <- math_sin (dlat / 2)%float ;;
  p1 <- float_pow s1 2 ;;
  c1 <- math_cos (radians lat) ;;
  relat <- math_radians elat ;;
  c2 <- math_cos relat ;;
  s2 <- math_sin (dlon / 2)%float ;;
  p2 <- float_pow s2 2 ;;
  let a := (p1 + c1 * c2 * p2)%float in
  q1 <- math_sqrt a ;;
  q2 <- math_sqrt (1 - a)%float ;;
  t <- math_atan2 q1 q2 ;;
  R2 <- float_of_int (R * 2) ;;
  int_of_float (R2 * t)%float.

(** ** [friendly_name] *)

Definition label_map : list (string * string) :=
  [ ("bench", "Seating / Rest Spot");
    ("toilets", "Public Washroom");
    ("shelter", "Shelter / Rest Area");
    ("hospital", "Hospital (Has Washrooms)");
    ("clinic", "Clinic (Has Washrooms)");
    ("pharmacy", "Pharmacy");
    ("doctors", "Doctor");
    ("health_centre", "Health Centre");
    ("park", "Park");
    ("elevator", "Elevator");
    ("cafe", "Café (Has Washrooms)");
    ("restaurant", "Restaurant (Has Washrooms)");
    ("mall", "Shopping Mall (Has Washrooms)") ].

(** [label_map[key]] when [key in label_map]: a list or a dict cannot be
    hashed, and no number, bool or None equals a string key. *)
Definition label_of (key : json) : result (option string) :=
  match key with
  | JStr s => Ok (assoc_get label_map s)
  | JList _ | JDict _ =>
      Raise (mk_exn TypeError ("unhashable type: " ++ quoted (type_name key)))
  | _ => Ok None
  end.

(** The [for key in [...]] loop: the label of the first key in the table. *)
Fixpoint first_label (keys : list json) : result (option string) :=
  match keys with
  | [] => Ok None
  | key :: keys' =>
      l <- label_of key ;;
      match l with
      | Some label => Ok (Some label)
      | None => first_label keys'
      end
  end.

(** [name.title()]. *)
Definition py_title (name : json) : result string :=
  match name with
  | JStr s => Ok (str_title s)
  | _ => Raise (mk_exn AttributeError
                 (quoted (type_name name) ++ " object has no attribute 'title'"))
  end.

Definition friendly_name (tags : json) : result string :=
  name <- py_get tags "name" JNull ;;
  if truthy name then py_title name
  else
    amenity <- py_get tags "amenity" (JStr "") ;;
    highway <- py_get tags "highway" (JStr "") ;;
    leisure <- py_get tags "leisure" (JStr "") ;;
    shop <- py_get tags "shop" (JStr "") ;;
    l <- first_label [amenity; highway; leisure; shop] ;;
    match l with
    | Some label => Ok label
    | None => Ok "Accessible Place"
    end.

(** ** The loop over the upstream elements *)

(** A Place Result: the dict appended to [places]. *)
Record place : Type := mk_place {
  name : string;
  address : json;
  p_lat : json;
  p_lng : json;
  distance_m : Z;
  types : list json;
  wheelchair : json
}.

(** The coordinates of an element: [None] stands for [continue] (an
    element that is not a node and has no centre). *)
Definition locate (el : json) : result (option (json * json)) :=
  ty <- py_getitem el "type" ;;
  if eq_str ty "node" then
    elat <- py_getitem el "lat" ;;
    elng <- py_getitem el "lon" ;;
    Ok (Some (elat, elng))
  else
    center <- py_get el "center" (JDict []) ;;
    if negb (truthy center) then Ok None
    else
      elat <- py_get center "lat" (JFloat lat) ;;
      elng <- py_get center "lon" (JFloat lng) ;;
      Ok (Some (elat, elng)).

(** [coord_key = (round(elat, 4), round(elng, 4))]. *)
Definition coord_key_of (elat elng : json) : result coord_key :=
  k1 <- py_round4 elat ;;
  k2 <- py_round4 elng ;;
  Ok (k1, k2).

(** The dict literal appended to [places]. *)
Definition make_place (tags elat elng : json) (dist : Z) : result place :=
  nm <- friendly_name tags ;;
  street <- py_get tags "addr:street" JNull ;;
  full <- py_get tags "addr:full" JNull ;;
  plc <- py_get tags "addr:place" JNull ;;
  amenity <- py_get tags "amenity" (JStr "") ;;
  highway <- py_get tags "highway" (JStr "") ;;
  leisure <- py_get tags "leisure" (JStr "") ;;
  shop <- py_get tags "shop" (JStr "") ;;
  wc <- py_get tags "wheelchair" (JStr "") ;;
  Ok {| name := nm;
        address := py_or street (py_or full (py_or plc (JStr "")));
        p_lat := elat;
        p_lng := elng;
        distance_m := dist;
        types := filter truthy [amenity; highway; leisure; shop];
        wheelchair := wc |}.

(** The state of the loop: the list [places] and the set [seen]. *)
Definition loop_state : Type := list place * list coord_key.

(** One iteration of [for el in elements]. *)
Definition step (st : loop_state) (el : json) : result loop_state :=
  let '(places, seen) := st in
  tags <- py_get el "tags" (JDict []) ;;
  loc <- locate el ;;
  match loc with
  | None => Ok st
  | Some (elat, elng) =>
      key <- coord_key_of elat elng ;;
      if key_in key seen then Ok st
      else
        let seen' := (seen ++ [key])%list in
        dist <- haversine elat elng ;;
        p <- make_place tags elat elng dist ;;
        Ok ((places ++ [p])%list, seen')
  end.

Fixpoint loop (els : list json) (st : loop_state) : result loop_state :=
  match els with
  | [] => Ok st
  | el :: els' => st' <- step st el ;; loop els' st'
  end.

(** ** Ranking *)

(** [places.sort(key=lambda p: p["distance_m"])]: the builtin sort is
    stable, here by insertion. *)
Fixpoint insert_place (p : place) (l : list place) : list place :=
  match l with
  | [] => [p]
  | q :: l' =>
      if distance_m p <=? distance_m q then p :: l
      else q :: insert_place p l'
  end.

Definition sort_places (l : list place) : list place :=
  fold_right insert_place [] l.

(** ** The handler *)

(** What the outbound call gives: [httpx.post] raises, or
    [raise_for_status] raises, or [resp.json()] raises, or [resp.json()]
    returns a value. *)
Inductive upstream : Type :=
  | PostRaises (e : exn)
  | StatusRaises (e : exn)
  | JsonRaises (e : exn)
  | Body (payload : json).

(** The body of the [try] block, given the outcome of the call. *)
Definition try_block (up : upstream) : result (list place) :=
  match up with
  | PostRaises e => Raise e
  | StatusRaises e => Raise e
  | JsonRaises e => Raise e
  | Body payload =>
      elements <- py_get payload "elements" (JList []) ;;
      els <- py_iter elements ;;
      st <- loop els ([], []) ;;
      Ok (firstn 15 (sort_places (fst st)))
  end.

(** The handler's return value: the dict with the key ["places"] and,
    on the [except] path, the key ["error"]. *)
Record response : Type := mk_response {
  places : list place;
  error : option string
}.

(** The external service, as a function of the query text posted. *)
Variable post : string -> upstream.

(** [nearby(lat, lng, filter)]; an absent [filter] is ["all"]. *)
Definition nearby (filter : option string) : response :=
  let filter := match filter with Some f => f | None => "all" end in
  let query := build_query filter in
  match try_block (post query) with
  | Ok ps => {| places := ps; error := None |}
  | Raise e => {| places := []; error := Some (exn_msg e) |}
  end.

End Handler.

Arguments nearby {rt} lat lng post filter.

(** ** A reference runtime

    An executable instance of [PyRuntime], so that the handler can be run
    on concrete inputs. It follows the [math] module on NaN and the
    infinities; on finite arguments the trigonometric functions are
    truncated Taylor series, accurate near zero, where the handler uses
    them for points a few kilometres apart ([math.cos] is applied to
    latitudes in radians, of magnitude at most [pi/2]). *)
Module Reference.

Local Open Scope float_scope.

Definition domain_error : exn := mk_exn ValueError "math domain error".

(** [x - x^3/3! + x^5/5! - ... - x^15/15!], in Horner form. *)
Definition sin_series (x : float) : float :=
  let y := x * x in
  x * (1 - y / 6 * (1 - y / 20 * (1 - y / 42 * (1 - y / 72 * (1 - y / 110
       * (1 - y / 156 * (1 - y / 210))))))).

(** [1 - x^2/2! + x^4/4! - ... + x^16/16!], in Horner form. *)
Definition cos_series (x : float) : float :=
  let y := x * x in
  1 - y / 2 * (1 - y / 12 * (1 - y / 30 * (1 - y / 56 * (1 - y / 90
    * (1 - y / 132 * (1 - y / 182 * (1 - y / 240))))))).

Definition ref_sin (x : float) : result float :=
  if is_nan x then Ok x
  else if is_infinity x then Raise domain_error
  else Ok (sin_series x).

(** The series is cut back into [[-1, 1]] where truncation leaves it. *)
Definition ref_cos (x : float) : result float :=
  if is_nan x then Ok x
  else if is_infinity x then Raise domain_error
  else
    let c := cos_series x in
    if abs c <=? 1 then Ok c else if c <? 0 then Ok (-1) else Ok 1.

(** [t - t^3/3 + t^5/5 - ... + t^21/21] for small [t]. *)
Definition atan_series (t : float) : float :=
  let y := t * t in
  t * (1 - y * (1 / 3 - y * (1 / 5 - y * (1 / 7 - y * (1 / 9 - y * (1 / 11
       - y * (1 / 13 - y * (1 / 15 - y * (1 / 17 - y * (1 / 19 - y / 21)))))))))).

(** [atan t = 2 atan (t / (1 + sqrt (1 + t^2)))], applied twice. *)
Definition half_arg (t : float) : float := t / (1 + sqrt (1 + t * t)).

Definition atan_small (t : float) : float :=
  4 * atan_series (half_arg (half_arg t)).

Definition ref_atan (t : float) : float :=
  if abs t <=? 1 then atan_small t
  else if t <? 0 then - (pi / 2) - atan_small (1 / t)
  else pi / 2 - atan_small (1 / t).

Definition copysign (m s : float) : float :=
  if get_sign s then - abs m else abs m.

(** [math.atan2(y, x)], with the special cases the [math] module sets.
    The result has the sign of [y], as the arc tangent has; the series
    is given that sign where truncation leaves it with the other. *)
Definition ref_atan2 (y x : float) : result float :=
  if is_nan x || is_nan y then Ok nan
  else if is_infinity y then
    if is_infinity x then
      Ok (copysign (if get_sign x then 0.75 * pi else 0.25 * pi) y)
    else Ok (copysign (0.5 * pi) y)
  else if is_infinity x || is_zero y then
    Ok (copysign (if get_sign x then pi else 0) y)
  else if is_zero x then Ok (copysign (0.5 * pi) y)
  else if 0 <? x then Ok (copysign (ref_atan (y / x)) y)
  else if y <? 0 then Ok (copysign (ref_atan (y / x) - pi) y)
  else Ok (copysign (ref_atan (y / x) + pi) y).

Fixpoint pow_pos (x : float) (n : positive) : float :=
  match n with
  | xH => x
  | xO n' => let h := pow_pos x n' in h * h
  | xI n' => let h := pow_pos x n' in x * (h * h)
  end.

Definition range_error : exn :=
  mk_exn OverflowError "(34, 'Numerical result out of range')".

(** [x ** n] for a float [x] and an [int] [n], by repeated squaring. *)
Definition ref_pow (x : float) (n : Z) : result float :=
  match n with
  | Z0 => Ok 1
  | Zpos p =>
      if is_nan x then Ok x
      else
        let v := pow_pos x p in
        if is_infinity v && negb (is_infinity x) then Raise range_error
        else Ok v
  | Zneg p =>
      if is_nan x then Ok x
      else if is_zero x then
        Raise (mk_exn ZeroDivisionError
                 "0.0 cannot be raised to a negative power")
      else Ok (1 / pow_pos x p)
  end.


(** [repr(x)]: the shortest decimal that reads back as [x], in the
    layout of [float.__repr__]. *)

(** The least [j >= from] with [den <= num * 10^j], searched in [fuel]
    steps. *)
Fixpoint scale_up (fuel : nat) (num den : Z) (from : Z) : Z :=
  match fuel with
  | O => from
  | S fuel' =>
      if (den <=? num * 10 ^ from)%Z then from
      else scale_up fuel' num den (from + 1)%Z
  end.

(** The decimal point position [k] of [num / den > 0]:
    [10^(k-1) <= num / den < 10^k]. *)
Definition decimal_point (num den : Z) : Z :=
  if (den <=? num)%Z
  then Z.of_nat (String.length (str_int (num / den)))
  else (1 - scale_up 400 num den 1)%Z.

(** The float nearest to [d * 10^ex]. *)
Definition float_of_decimal (d : Z) (ex : Z) : float :=
  if (0 <=? ex)%Z
  then SF2Prim (binary_normalize prec emax (d * 10 ^ ex) 0 false)
  else
    match d with
    | Zpos p =>
        SF2Prim (SFdiv prec emax (S754_finite false p 0)
                       (S754_finite false (Z.to_pos (10 ^ (- ex))) 0))
    | _ => 0
    end.

(** The [n]-digit decimals on either side of [num / den], with the one
    that reads back as [x] (the nearer when both do), as
    [(digits, decimal point)]. *)
Definition try_digits (x : float) (num den k : Z) (n : Z) : option (Z * Z) :=
  let sn := if (k <=? n)%Z then (num * 10 ^ (n - k))%Z else num in
  let sd := if (k <=? n)%Z then den else (den * 10 ^ (k - n))%Z in
  let lo := (sn / sd)%Z in
  let hi := (lo + 1)%Z in
  let ok d := (float_of_decimal d (k - n) =? x) in
  let norm d := if (d =? 10 ^ n)%Z then (10 ^ (n - 1), k + 1)%Z else (d, k) in
  let lo_nearer :=
    match (2 * (sn mod sd) ?= sd)%Z with
    | Lt => true
    | Eq => Z.even lo
    | Gt => false
    end in
  match ok lo, ok hi with
  | true, true => Some (norm (if lo_nearer then lo else hi))
  | true, false => Some (norm lo)
  | false, true => Some (norm hi)
  | false, false => None
  end.

Fixpoint shortest (fuel : nat) (x : float) (num den k : Z) (n : Z) : Z * Z :=
  match fuel with
  | O => (0, k)%Z
  | S fuel' =>
      match try_digits x num den k n with
      | Some dk => dk
      | None => shortest fuel' x num den k (n + 1)%Z
      end
  end.

Fixpoint strip_zeros (fuel : nat) (d : Z) : Z :=
  match fuel with
  | O => d
  | S fuel' => if ((d mod 10 =? 0) && negb (d =? 0))%Z
               then strip_zeros fuel' (d / 10)%Z else d
  end.

Fixpoint zeros (n : nat) : string :=
  match n with
  | O => EmptyString
  | S n' => String "0" (zeros n')
  end.

Definition two_digits (z : Z) : string :=
  if (z <? 10)%Z then String "0" (str_int z) else str_int z.

(** The layout: fixed point when the decimal point [k] is in [(-4, 16]],
    exponent form otherwise. *)
Definition layout (digits : string) (k : Z) : string :=
  let n := Z.of_nat (String.length digits) in
  if ((-4 <? k) && (k <=? 16))%Z then
    if (k <=? 0)%Z then ("0." ++ zeros (Z.to_nat (- k)) ++ digits)%string
    else if (n <=? k)%Z then (digits ++ zeros (Z.to_nat (k - n)) ++ ".0")%string
    else (substring 0 (Z.to_nat k) digits ++ "."
            ++ substring (Z.to_nat k) (Z.to_nat (n - k)) digits)%string
  else
    (substring 0 1 digits
       ++ (if (1 <? n)%Z then "." ++ substring 1 (Z.to_nat (n - 1)) digits else "")
       ++ "e" ++ (if (k - 1 <? 0)%Z then "-" else "+")
       ++ two_digits (Z.abs (k - 1)))%string.

Definition ref_repr (x : float) : string :=
  match Prim2SF x with
  | S754_nan => "nan"
  | S754_infinity s => if s then "-inf" else "inf"
  | S754_zero s => if s then "-0.0" else "0.0"
  | S754_finite s m e =>
      let num := if (0 <=? e)%Z then (Zpos m * 2 ^ e)%Z else Zpos m in
      let den := if (0 <=? e)%Z then 1%Z else (2 ^ (- e))%Z in
      let k := decimal_point num den in
      let '(d, k') := shortest 17 (abs x) num den k 1 in
      let digits := str_int (strip_zeros 17 d) in
      ((if s then "-" else "") ++ layout digits k')%string
  end.

Local Close Scope float_scope.

(** [str.title] on ASCII text: a letter that follows a letter is put in
    lower case, any other letter in upper case. *)
Definition is_upper (c : ascii) : bool :=
  let n := nat_of_ascii c in (65 <=? n)%nat && (n <=? 90)%nat.

Definition is_lower (c : ascii) : bool :=
  let n := nat_of_ascii c in (97 <=? n)%nat && (n <=? 122)%nat.

Definition to_upper (c : ascii) : ascii :=
  if is_lower c then ascii_of_nat (nat_of_ascii c - 32) else c.

Definition to_lower (c : ascii) : ascii :=
  if is_upper c then ascii_of_nat (nat_of_ascii c + 32) else c.

Fixpoint title_from (previous_is_cased : bool) (s : string) : string :=
  match s with
  | EmptyString => EmptyString
  | String c s' =>
      String (if previous_is_cased then to_lower c else to_upper c)
             (title_from (is_upper c || is_lower c) s')
  end.

Definition ref_title (s : string) : string := title_from false s.

End Reference.

Definition reference_runtime : PyRuntime := {|
  math_sin := Reference.ref_sin;
  math_cos := Reference.ref_cos;
  math_atan2 := Reference.ref_atan2;
  float_pow := Reference.ref_pow;
  float_repr := Reference.ref_repr;
  str_title := Reference.ref_title
|}.

(** * The accounts: [database.py] and the page handlers of [main.py]

    The table [users] is the list of its rows in rowid order, passed
    through the handlers in place of the session [db]. What a handler
    raises (it has no [try]) is an [outcome]: the [HTTPException] of the
    page handlers, the integrity error and the integer overflow of the
    SQLite driver, an error of the [bcrypt] library. *)

Inductive raised : Type :=
  | HTTPException (status_code : Z) (detail : string)
  | IntegrityError (detail : string)
  | SqliteOverflow
  | BcryptError (e : exn).

Inductive outcome (A : Type) : Type :=
  | Returns (a : A)
  | Raises (r : raised).

Arguments Returns {A} a.
Arguments Raises {A} r.

Definition and_then {A B : Type} (c : outcome A) (k : A -> outcome B) : outcome B :=
  match c with
  | Returns a => k a
  | Raises r => Raises r
  end.

Notation "'let*' x ':=' c 'in' k" := (and_then c (fun x => k))
  (at level 10, x pattern, c at level 100, k at level 200).

(** ** [database.py] *)

Module Database.

(** A row of the table [users]. *)
Record User : Type := mk_User {
  id : Z;
  name : string;
  age : Z;
  gender : string;
  mobile : string;
  password : string;
  category : string;
  disability_type : option string;
  emergency_contacts : option string
}.

Definition Session : Type := list User.

(** An integer the driver can bind: SQLite integers have 64 bits. *)
Definition sqlite_int (z : Z) : bool := (- 2 ^ 63 <=? z) && (z <? 2 ^ 63).

(** [db.query(User).filter(User.mobile == mobile).first()]. *)
Definition get_user_by_mobile (db : Session) (a_mobile : string) : option User :=
  find (fun u => String.eqb (mobile u) a_mobile) db.

(** [db.query(User).filter(User.id == user_id).first()]. *)
Definition get_user_by_id (db : Session) (user_id : Z) : outcome (option User) :=
  if sqlite_int user_id
  then Returns (find (fun u => id u =? user_id) db)
  else Raises SqliteOverflow.

(** The rowid SQLite gives a new row: one more than the largest. *)
Definition next_id (db : Session) : Z := 1 + fold_right Z.max 0 (map id db).

(** [db.add(user); db.commit(); db.refresh(user)]: the column [mobile] is
    unique, the integer [age] is bound by the driver. *)
Definition create_user (db : Session) (a_name : string) (an_age : Z)
    (a_gender a_mobile hashed_password a_category : string)
    (a_disability_type an_emergency_contacts : option string)
    : outcome (User * Session) :=
  if negb (sqlite_int an_age) then Raises SqliteOverflow
  else if existsb (fun u => String.eqb (mobile u) a_mobile) db
  then Raises (IntegrityError "UNIQUE constraint failed: users.mobile")
  else
    let user := {| id := next_id db;
                   name := a_name;
                   age := an_age;
                   gender := a_gender;
                   mobile := a_mobile;
                   password := hashed_password;
                   category := a_category;
                   disability_type := a_disability_type;
                   emergency_contacts := an_emergency_contacts |} in
    Returns (user, (db ++ [user])%list).

End Database.

(** ** The page handlers *)

(** [bcrypt.hashpw(password, salt)] and [bcrypt.checkpw(password, hashed)],
    on the UTF-8 bytes that [.encode("utf-8")] gives. *)
Class Bcrypt : Type := {
  hashpw : string -> string -> result string;
  checkpw : string -> string -> result bool
}.

Definition of_result {A : Type} (c : result A) : outcome A :=
  match c with
  | Ok a => Returns a
  | Raise e => Raises (BcryptError e)
  end.

(** [s.split(sep)] for a one-character separator. *)
Fixpoint str_split (sep : ascii) (s : string) : list string :=
  match s with
  | EmptyString => [EmptyString]
  | String c s' =>
      if Ascii.eqb c sep then EmptyString :: str_split sep s'
      else
        match str_split sep s' with
        | piece :: pieces => String c piece :: pieces
        | [] => [String c EmptyString]
        end
  end.

(** An entry of the list [emergency_contacts] of the dashboard. *)
Record contact : Type := mk_contact {
  contact_name : string;
  number : string
}.

(** What a template is rendered with. *)
Inductive context_value : Type :=
  | CtxRequest
  | CtxStr (s : string)
  | CtxNone
  | CtxUser (u : Database.User)
  | CtxContacts (l : list contact).

Inductive page_response : Type :=
  | TemplateResponse (template : string) (context : list (string * context_value))
  | RedirectResponse (url : string) (status_code : Z).

(** [s in (...)] for a tuple of strings. *)
Definition str_in (s : string) (l : list string) : bool :=
  existsb (String.eqb s) l.

(** The redirect that ends [signup] and [login]: to the page of the
    user's category. *)
Definition category_page (user : Database.User) : page_response :=
  if str_in (Database.category user) ["disabled"; "differently_abled"]
  then RedirectResponse ("/disabled/" ++ str_int (Database.id user)) 302
  else RedirectResponse ("/senior/" ++ str_int (Database.id user)) 302.

(** The loop of [dashboard] over [user.emergency_contacts.split(",")],
    with [parts = contact.split(":")]. *)
Fixpoint contacts_of (pieces : list string) : list contact :=
  match pieces with
  | [] => []
  | piece :: pieces' =>
      match str_split ":" piece with
      | [part0; part1] => mk_contact part0 part1 :: contacts_of pieces'
      | _ => contacts_of pieces'
      end
  end.

Definition parse_contacts (emergency_contacts : option string) : list contact :=
  match emergency_contacts with
  | None => []
  | Some s => if String.eqb s "" then [] else contacts_of (str_split "," s)
  end.

Definition ctx_opt (o : option string) : context_value :=
  match o with Some s => CtxStr s | None => CtxNone end.

Section Pages.

Context {bc : Bcrypt}.

Definition home : page_response :=
  TemplateResponse "home.html" [("request", CtxRequest)].

Definition emergency : page_response :=
  TemplateResponse "emergency.html" [("request", CtxRequest)].

Definition signup_page : page_response :=
  TemplateResponse "signup.html" [("request", CtxRequest)].

Definition login_page : page_response :=
  TemplateResponse "login.html" [("request", CtxRequest)].

Definition logout : page_response := RedirectResponse "/" 302.

(** [signup]; [salt] is what [bcrypt.gensalt()] returns. The lookup
    and the insert are two statements, with the hashing between them, on
    a database that other requests write to: [db] is the table as the
    lookup finds it, [db_insert] the table as the insert finds it. The
    table returned is the one the request leaves. *)
Definition signup_at (db db_insert : Database.Session) (salt : string)
    (name : string) (age : Z) (gender mobile password category : string)
    (disability_type emergency_contacts : option string)
    : outcome (page_response * Database.Session) :=
  if negb (str_in category ["disabled"; "differently_abled"; "senior"]) then
    Returns (TemplateResponse "signup.html"
               [("request", CtxRequest);
                ("error", CtxStr "Please select a valid category.")], db)
  else
    match Database.get_user_by_mobile db mobile with
    | Some existing =>
        Returns (TemplateResponse "signup.html"
                   [("request", CtxRequest);
                    ("error", CtxStr "Mobile number already registered. Please login.")],
                 db)
    | None =>
        let* hashed_pw := of_result (hashpw password salt) in
        let* created :=
          Database.create_user db_insert name age gender mobile hashed_pw
            category disability_type emergency_contacts in
        Returns (category_page (fst created), snd created)
    end.

(** [signup] when no other request writes between its lookup and its
    insert: the table before and after. *)
Definition signup (db : Database.Session) (salt : string)
    (name : string) (age : Z) (gender mobile password category : string)
    (disability_type emergency_contacts : option string)
    : outcome (page_response * Database.Session) :=
  signup_at db db salt name age gender mobile password category
    disability_type emergency_contacts.

Definition login (db : Database.Session) (mobile password : string)
    : outcome page_response :=
  match Database.get_user_by_mobile db mobile with
  | None =>
      Returns (TemplateResponse "login.html"
                 [("request", CtxRequest);
                  ("error", CtxStr "Mobile number not found. Please sign up.")])
  | Some user =>
      let* matches := of_result (checkpw password (Database.password user)) in
      if negb matches then
        Returns (TemplateResponse "login.html"
                   [("request", CtxRequest);
                    ("error", CtxStr "Incorrect password. Please try again.")])
      else Returns (category_page user)
  end.

Definition user_not_found : raised := HTTPException 404 "User not found".

Definition dashboard (db : Database.Session) (user_id : Z) : outcome page_response :=
  let* found := Database.get_user_by_id db user_id in
  match found with
  | None => Raises user_not_found
  | Some user =>
      Returns (TemplateResponse "dashboard.html"
                 [("request", CtxRequest);
                  ("user", CtxUser user);
                  ("emergency_contacts",
                   CtxContacts (parse_contacts (Database.emergency_contacts user)))])
  end.

Definition disabled (db : Database.Session) (user_id : Z) : outcome page_response :=
  let* found := Database.get_user_by_id db user_id in
  match found with
  | None => Raises user_not_found
  | Some user =>
      Returns (TemplateResponse "disabled.html"
                 [("request", CtxRequest);
                  ("user", CtxUser user);
                  ("disability_type", ctx_opt (Database.disability_type user))])
  end.

Definition senior (db : Database.Session) (user_id : Z) : outcome page_response :=
  let* found := Database.get_user_by_id db user_id in
  match found with
  | None => Raises user_not_found
  | Some user =>
      Returns (TemplateResponse "senior.html"
                 [("request", CtxRequest); ("user", CtxUser user)])
  end.

End Pages.

(** * The vocabulary of the properties

    The definitions the statements below are written with: the spec's
    own wording of the labelling rule and of the fields of a Place
    Result, the invariant of the loop, the conditions on the platform
    functions, and facts of binary64 rounding. *)

(** ** Filters *)

(** The filter values that [queries_map] has as keys. *)
Definition filter_values : list string :=
  ["elevator"; "rest"; "washroom"; "hospital"; "all"].

(** The [filter] argument as the handler sees it: the default is ["all"]. *)
Definition filter_or_default (filter : option string) : string :=
  match filter with Some f => f | None => "all" end.

(** ** Tag mappings and the labelling rule *)

(** A tag mapping as the map service sends it: string keys, and values
    that are strings (or null). *)
Definition tagmap : Type := list (string * option string).

Definition tag_json (v : option string) : json :=
  match v with Some s => JStr s | None => JNull end.

Definition tags_json (t : tagmap) : json :=
  JDict (map (fun kv => (fst kv, tag_json (snd kv))) t).

(** The labelling rule in the words of the specification: the name tag,
    title-cased, when present and non-empty; otherwise the label of the
    first of the amenity, highway, leisure and shop values that the label
    table has; otherwise the fallback label. *)
Definition priority_keys : list string :=
  ["amenity"; "highway"; "leisure"; "shop"].

Definition tag_text (t : tagmap) (k : string) : string :=
  match assoc_get t k with
  | Some (Some v) => v
  | _ => ""
  end.

Fixpoint first_match (values : list string) : option string :=
  match values with
  | [] => None
  | v :: values' =>
      match assoc_get label_map v with
      | Some label => Some label
      | None => first_match values'
      end
  end.

Definition fallback_label : string := "Accessible Place".

Definition label_by_kind (t : tagmap) : string :=
  match first_match (map (tag_text t) priority_keys) with
  | Some label => label
  | None => fallback_label
  end.

Definition display_name {rt : PyRuntime} (t : tagmap) : string :=
  match assoc_get t "name" with
  | Some (Some n) => if String.eqb n "" then label_by_kind t else str_title n
  | _ => label_by_kind t
  end.

(** ** Ranking, skipped and malformed elements *)

(** [p] is at least as near as [q]. *)
Definition nearer (p q : place) : Prop := distance_m p <= distance_m q.

(** The centre that [el.get("center", {})] reads from the element [d]. *)
Definition center_of (d : list (string * json)) : json :=
  match dict_get d "center" with
  | Some c => c
  | None => JDict []
  end.

(** The key whose absence makes an element malformed: ["type"], or for a
    node ["lat"] or ["lon"]. *)
Definition missing_key (el : json) : option string :=
  match el with
  | JDict d =>
      match dict_get d "type" with
      | None => Some "type"
      | Some ty =>
          if eq_str ty "node" then
            match dict_get d "lat", dict_get d "lon" with
            | None, _ => Some "lat"
            | Some _, None => Some "lon"
            | Some _, Some _ => None
            end
          else None
      end
  | _ => None
  end.

(** ** Exceptions with a message *)

(** A computation whose exceptions, if any, carry a message. *)
Definition with_message {A : Type} (c : result A) : Prop :=
  match c with
  | Ok _ => True
  | Raise e => exn_msg e <> ""
  end.

(** The platform functions raise exceptions that carry a message (they
    raise "math domain error" and the like). *)
Record runtime_messages (rt : PyRuntime) : Prop := {
  sin_message : forall x, with_message (math_sin x);
  cos_message : forall x, with_message (math_cos x);
  atan2_message : forall y x, with_message (math_atan2 y x);
  pow_message : forall x n, with_message (float_pow x n)
}.

(** The exception of a failed call carries a message, as those of
    [httpx] and of the JSON decoder do ("timed out", "Client error '404
    Not Found' for url ...", "Expecting value: line 1 column 1 (char
    0)"). *)
Definition upstream_message (up : upstream) : Prop :=
  match up with
  | PostRaises e | StatusRaises e | JsonRaises e => exn_msg e <> ""
  | Body _ => True
  end.

(** ** The loop invariant *)

(** The key of a Place Result, from the coordinates it carries. *)
Definition place_key (p : place) : result coord_key :=
  coord_key_of (p_lat p) (p_lng p).

(** The loop invariant: the places and the keys of [seen] correspond, in
    order, and no key of [seen] equals an earlier one. *)
Definition keys_of (ps : list place) (seen : list coord_key) : Prop :=
  Forall2 (fun p k => place_key p = Ok k) ps seen.

Definition distinct (seen : list coord_key) : Prop :=
  forall s1 k s2, seen = (s1 ++ k :: s2)%list ->
                  forall k', In k' s2 -> key_eq k' k = false.

Definition inv (st : loop_state) : Prop :=
  keys_of (fst st) (snd st) /\ distinct (snd st).

(** Every place carries the distance computed for its coordinates. *)
Definition measured {rt : PyRuntime} (lat lng : float) (ps : list place) : Prop :=
  Forall (fun p => haversine lat lng (p_lat p) (p_lng p) = Ok (distance_m p)) ps.

(** ** Binary64 numbers and the platform functions *)

(** A number that is neither NaN nor an infinity. *)
Definition SFfinite (x : spec_float) : bool :=
  match x with
  | S754_zero _ | S754_finite _ _ _ => true
  | _ => false
  end.

(** The exponent of a finite non-zero number is at most [b]. *)
Definition exp_le (x : spec_float) (b : Z) : Prop :=
  match x with
  | S754_finite _ _ e => e <= b
  | _ => True
  end.

(** A shifted mantissa is not negative and has at most [k] digits. *)
Definition shr_ok (k : Z) (mrs : shr_record) : Prop :=
  0 <= shr_m mrs /\ Zdigits2 (shr_m mrs) <= Z.max 0 k.

(** What the distance of a point to itself needs of the platform: the
    sine of [+0] is [+0], [0.0 ** 2] is [0.0], the arc tangent of
    [+0 / 1] is [+0], and the cosine of a finite number is a number of
    magnitude at most 1. *)
Record libm_laws (rt : PyRuntime) : Prop := {
  sin_zero : math_sin 0%float = Ok 0%float;
  pow_zero : float_pow 0%float 2 = Ok 0%float;
  atan2_zero : math_atan2 0%float 1%float = Ok 0%float;
  cos_range : forall x, is_finite x = true ->
              exists c, math_cos x = Ok c /\ (abs c <=? 1)%float = true
}.

(** What a query point that is no number needs of the platform: the
    sine and the square of a NaN are NaN, and so is the arc tangent of
    two NaNs; none of them raises. *)
Record libm_nan_laws (rt : PyRuntime) : Prop := {
  sin_nan : math_sin nan = Ok nan;
  pow_nan : float_pow nan 2 = Ok nan;
  atan2_nan : math_atan2 nan nan = Ok nan
}.

(** The sign bit of a number; a NaN has none. *)
Definition SFsign (x : spec_float) : bool :=
  match x with
  | S754_zero s | S754_infinity s | S754_finite s _ _ => s
  | S754_nan => false
  end.

(** A number below zero. *)
Definition SFnegative (x : spec_float) : bool :=
  match x with
  | S754_infinity s | S754_finite s _ _ => s
  | _ => false
  end.

(** What the sign of a distance needs of the platform: [math.atan2(y, x)]
    is not below zero when [y] is not, unless [y] is the negative zero
    and [x] has the sign bit (there the arc tangent is [-pi]). *)
Definition atan2_sign (rt : PyRuntime) : Prop :=
  forall y x t,
    math_atan2 y x = Ok t ->
    (y <? 0)%float = false ->
    SFsign (Prim2SF y) = false \/ SFsign (Prim2SF x) = false ->
    (t <? 0)%float = false.

(** [center.get(k, x)] for the query coordinate [x]. *)
Definition coord_or (o : option json) (x : float) : json :=
  match o with
  | Some v => v
  | None => JFloat x
  end.

(** The key of the query point itself. *)
Definition query_key (lat lng : float) : coord_key :=
  (PFloat (round4 lat), PFloat (round4 lng)).

(** ** The fields of a Place Result *)

Definition nonempty (s : string) : bool := negb (String.eqb s "").

(** The address: the first non-empty of the three address tags, or the
    empty string. *)
Definition address_keys : list string := ["addr:street"; "addr:full"; "addr:place"].

Fixpoint first_nonempty (values : list string) : string :=
  match values with
  | [] => ""
  | v :: values' => if nonempty v then v else first_nonempty values'
  end.

Definition address_of (t : tagmap) : string :=
  first_nonempty (map (tag_text t) address_keys).

(** The category tags: the non-empty values among amenity, highway,
    leisure and shop, in that order. *)
Definition types_of (t : tagmap) : list string :=
  filter nonempty (map (tag_text t) priority_keys).

Definition wheelchair_of (t : tagmap) : json :=
  match assoc_get t "wheelchair" with
  | Some v => tag_json v
  | None => JStr ""
  end.

(** Two places whose keys, when they have one, are not equal. *)
Definition apart (p q : place) : Prop :=
  forall kp kq, place_key p = Ok kp -> place_key q = Ok kq -> key_eq kp kq = false.

(** ** Where a place comes from, and ties of the ranking *)

(** The place [p] is what the loop builds from the element [el]: from
    its tags, the coordinates [locate] reads from it, and the distance
    of those coordinates. *)
Definition from_element {rt : PyRuntime} (lat lng : float) (el : json) (p : place)
    : Prop :=
  exists tags a b d,
    py_get el "tags" (JDict []) = Ok tags
    /\ locate lat lng el = Ok (Some (a, b))
    /\ haversine lat lng a b = Ok d
    /\ make_place tags a b d = Ok p.

(** The places of [l] at the distance [d], in the order of [l]. *)
Definition at_distance (d : Z) (l : list place) : list place :=
  filter (fun p => distance_m p =? d) l.

(** The places of [l] farther than [d], in the order of [l]. *)
Definition farther_than (d : Z) (l : list place) : list place :=
  filter (fun p => d <? distance_m p) l.

(** ** Accounts *)

(** [sep] does not occur in [s]. *)
Fixpoint free_of (sep : ascii) (s : string) : bool :=
  match s with
  | EmptyString => true
  | String c s' => negb (Ascii.eqb c sep) && free_of sep s'
  end.

(** The number of occurrences of [sep] in [s]. *)
Fixpoint count_char (sep : ascii) (s : string) : nat :=
  match s with
  | EmptyString => O
  | String c s' => (if Ascii.eqb c sep then 1 else 0) + count_char sep s'
  end.

(** [sep.join(pieces)]. *)
Fixpoint join (sep : ascii) (pieces : list string) : string :=
  match pieces with
  | [] => EmptyString
  | [piece] => piece
  | piece :: pieces' => piece ++ String sep (join sep pieces')
  end.

(** The stored form of the emergency contacts, as the comment on the
    column has it: "Name:Number,Name:Number". *)
Definition contact_entry (c : contact) : string :=
  contact_name c ++ String ":" (number c).

Definition format_contacts (cs : list contact) : string :=
  join "," (map contact_entry cs).

(** A contact whose name and number hold neither [,] nor [:]. *)
Definition clean_contact (c : contact) : bool :=
  free_of "," (contact_name c) && free_of ":" (contact_name c)
  && free_of "," (number c) && free_of ":" (number c).

(** The tables the handlers can reach from the empty one: the ids are
    1, 2, ... in order, no mobile number is there twice, and every age
    is an integer the driver could bind. *)
Definition db_ok (db : Database.Session) : Prop :=
  map Database.id db = map Z.of_nat (seq 1 (List.length db))
  /\ NoDup (map Database.mobile db)
  /\ Forall (fun u => Database.sqlite_int (Database.age u) = true) db.

(** What the handlers need of [bcrypt]: a password checks against its
    own hash. *)
Definition bcrypt_law (bc : Bcrypt) : Prop :=
  forall pw salt hashed, hashpw pw salt = Ok hashed -> checkpw pw hashed = Ok true.

(** A stand-in for the library with the one law used here: it hashes
    nothing. *)
Definition plain_bcrypt : Bcrypt := {|
  hashpw := fun pw salt => Ok pw;
  checkpw := fun pw hashed => Ok (String.eqb pw hashed)
|}.

(** A piece of the stored string that the dashboard shows: it holds
    exactly one colon. *)
Definition one_colon (piece : string) : bool := (count_char ":" piece =? 1)%nat.

(** The categories [signup] accepts. *)
Definition valid_categories : list string := ["disabled"; "differently_abled"; "senior"].

(** A form shown again with an error message. *)
Definition error_page (template message : string) : page_response :=
  TemplateResponse template [("request", CtxRequest); ("error", CtxStr message)].

(** The row that [create_user] adds to the table [db]. *)
Definition new_user (db : Database.Session) (name : string) (age : Z)
    (gender mobile hashed_password category : string)
    (disability_type emergency_contacts : option string) : Database.User :=
  {| Database.id := Database.next_id db;
     Database.name := name;
     Database.age := age;
     Database.gender := gender;
     Database.mobile := mobile;
     Database.password := hashed_password;
     Database.category := category;
     Database.disability_type := disability_type;
     Database.emergency_contacts := emergency_contacts |}.

(** The page of a category: that of the seniors for ["senior"], that of
    the disabled otherwise. *)
Definition category_url (category : string) (user_id : Z) : string :=
  (if String.eqb category "senior" then "/senior/" else "/disabled/")
  ++ str_int user_id.

(** The ids of a table of [n] rows: 1, ..., [n]. *)
Definition known_id (db : Database.Session) (user_id : Z) : bool :=
  (1 <=? user_id) && (user_id <=? Z.of_nat (List.length db)).

(** ** Sample inputs *)

Definition bangalore_lat : float := 12.9716%float.
Definition bangalore_lng : float := 77.5946%float.

Definition hospital_way_without_center : list (string * json) :=
  [("type", JStr "way"); ("tags", JDict [("amenity", JStr "hospital")])].

Definition toilets_node : json :=
  JDict [("type", JStr "node"); ("lat", JFloat 12.9720); ("lon", JFloat 77.5950);
         ("tags", JDict [("amenity", JStr "toilets")])].

Definition node_without_type : json :=
  JDict [("lat", JFloat 12.9730); ("lon", JFloat 77.5960);
         ("tags", JDict [("amenity", JStr "cafe")])].

Definition node_at (la lo : float) (tags : list (string * json)) : json :=
  JDict [("type", JStr "node"); ("lat", JFloat la); ("lon", JFloat lo);
         ("tags", JDict tags)].

(** The two elements of the specification's example: their coordinates
    round to the pair (12.9715, 77.5946). *)
Definition first_seen : json :=
  node_at 12.97150 77.59460 [("amenity", JStr "hospital")].

Definition later_seen : json :=
  node_at 12.97151 77.59462 [("amenity", JStr "pharmacy")].

Definition example_key : coord_key := (PFloat 12.9715, PFloat 77.5946).

(** A hospital 3.2 km from the query point: beyond the radius of the
    query, and returned all the same. *)
Definition far_node : json :=
  node_at 13.0 77.6 [("amenity", JStr "hospital")].

Definition far_place : place :=
  {| name := "Hospital (Has Washrooms)";
     address := JStr "";
     p_lat := JFloat 13.0;
     p_lng := JFloat 77.6;
     distance_m := 3211;
     types := [JStr "hospital"];
     wheelchair := JStr "" |}.

(** Sixteen nodes, 111 m apart to the north of the query point, all
    within the radius and all with keys of their own. *)
Definition sixteen_nodes : list json :=
  map (fun la => node_at la 77.5946 [("amenity", JStr "bench")])
    [12.9726; 12.9736; 12.9746; 12.9756; 12.9766; 12.9776; 12.9786; 12.9796;
     12.9806; 12.9816; 12.9826; 12.9836; 12.9846; 12.9856; 12.9866;
     12.9876]%float.

(** A way whose centre has neither ["lat"] nor ["lon"]. *)
Definition way_with_blank_center : list (string * json) :=
  [("type", JStr "way"); ("center", JDict [("x", JInt 1)]);
   ("tags", JDict [("amenity", JStr "hospital")])].

(** The place of that way, queried from the sample point. *)
Definition blank_way_place : place :=
  {| name := "Hospital (Has Washrooms)";
     address := JStr "";
     p_lat := JFloat bangalore_lat;
     p_lng := JFloat bangalore_lng;
     distance_m := 0;
     types := [JStr "hospital"];
     wheelchair := JStr "" |}.

(** A node at the sample point itself. *)
Definition node_at_query_point : json :=
  node_at bangalore_lat bangalore_lng [("amenity", JStr "pharmacy")].

(** Two emergency contacts, and a table of one row that stores them. *)
Definition ravi : contact := mk_contact "Ravi" "9876543210".
Definition meena : contact := mk_contact "Meena" "100".

Definition asha : Database.User :=
  {| Database.id := 1;
     Database.name := "Asha";
     Database.age := 67;
     Database.gender := "female";
     Database.mobile := "9000000001";
     Database.password := "secret";
     Database.category := "senior";
     Database.disability_type := None;
     Database.emergency_contacts := Some "Ravi:9876543210,Meena:100" |}.

(** The row that signing up adds to the table [[asha]]. *)
Definition bala : Database.User :=
  {| Database.id := 2;
     Database.name := "Bala";
     Database.age := 34;
     Database.gender := "male";
     Database.mobile := "9000000002";
     Database.password := "pw";
     Database.category := "differently_abled";
     Database.disability_type := Some "wheelchair";
     Database.emergency_contacts := None |}.

(** * Properties *)

(** ** The query: filters *)

Lemma assoc_get_map_snd {A B : Type} (g : A -> B) (m : list (string * A)) k :
  assoc_get (map (fun kv => (fst kv, g (snd kv))) m) k
  = option_map g (assoc_get m k).
Proof.
  induction m as [|[k' v] m IH]; simpl; [reflexivity|].
  destruct (String.eqb k' k); [reflexivity | exact IH].
Qed.

Lemma inner_clauses {rt : PyRuntime} lat lng filter :
  inner lat lng filter = block_text lat lng (clauses_for filter).
Proof.
  unfold inner, queries_map, clauses_for.
  rewrite (assoc_get_map_snd (block_text lat lng)).
  destruct (assoc_get clause_table filter); reflexivity.
Qed.

Lemma clauses_for_unrecognized filter :
  ~ In filter filter_values -> clauses_for filter = all_clauses.
Proof.
  intros Hnot. unfold clauses_for, clause_table, assoc_get.
  repeat match goal with
  | |- context [String.eqb ?k filter] =>
      destruct (String.eqb_spec k filter) as [Heq|_];
      [ exfalso; apply Hnot; rewrite <- Heq; simpl; tauto | ]
  end.
  reflexivity.
Qed.

(** C6. A filter that is absent, or is none of elevator, rest, washroom,
    hospital, all, selects the clause set of ["all"]: the clause set, the
    text [inner], the whole query and hence the handler's result are those
    of the filter ["all"]. *)
Theorem unrecognized_filter_is_all {rt : PyRuntime} (lat lng : float)
    (post : string -> upstream) (filter : option string) :
  (forall f, filter = Some f -> ~ In f filter_values) ->
  clauses_for (filter_or_default filter) = clauses_for "all"
  /\ inner lat lng (filter_or_default filter) = inner lat lng "all"
  /\ build_query lat lng (filter_or_default filter) = build_query lat lng "all"
  /\ nearby lat lng post filter = nearby lat lng post (Some "all").
Proof.
  intros Hnot.
  assert (Hc : clauses_for (filter_or_default filter) = clauses_for "all").
  { destruct filter as [f|]; [|reflexivity].
    simpl. rewrite (clauses_for_unrecognized f (Hnot f eq_refl)). reflexivity. }
  assert (Hi : inner lat lng (filter_or_default filter) = inner lat lng "all").
  { rewrite !inner_clauses, Hc. reflexivity. }
  assert (Hq : build_query lat lng (filter_or_default filter)
               = build_query lat lng "all").
  { unfold build_query. rewrite Hi. reflexivity. }
  repeat split; try assumption.
  unfold nearby. fold (filter_or_default filter). rewrite Hq. reflexivity.
Qed.

Lemma unrecognized_filter_is_all_witness :
  clauses_for (filter_or_default (Some "foo")) = clauses_for "all"
  /\ inner (rt := reference_runtime) 12.9716 77.5946
        (filter_or_default (Some "foo"))
     = inner (rt := reference_runtime) 12.9716 77.5946 "all"
  /\ build_query (rt := reference_runtime) 12.9716 77.5946
        (filter_or_default (Some "foo"))
     = build_query (rt := reference_runtime) 12.9716 77.5946 "all"
  /\ nearby (rt := reference_runtime) 12.9716 77.5946
        (fun _ => Body (JDict [])) (Some "foo")
     = nearby (rt := reference_runtime) 12.9716 77.5946
        (fun _ => Body (JDict [])) (Some "all").
Proof.
  apply (unrecognized_filter_is_all (rt := reference_runtime)).
  intros f Hf. injection Hf as <-. simpl.
  intros [H|[H|[H|[H|[H|[]]]]]]; discriminate H.
Defined.

(** ** Display names *)

Lemma dict_get_tags (t : tagmap) k :
  dict_get (map (fun kv => (fst kv, tag_json (snd kv))) t) k
  = option_map tag_json (assoc_get t k).
Proof.
  induction t as [|[k' v] t IH]; simpl; [reflexivity|].
  destruct (String.eqb k' k); [reflexivity | exact IH].
Qed.

Lemma py_get_tags (t : tagmap) k default :
  py_get (tags_json t) k default
  = Ok (match assoc_get t k with Some v => tag_json v | None => default end).
Proof.
  unfold py_get, tags_json. rewrite dict_get_tags.
  destruct (assoc_get t k); reflexivity.
Qed.

Lemma label_of_tag (t : tagmap) k :
  label_of (match assoc_get t k with Some v => tag_json v | None => JStr "" end)
  = Ok (assoc_get label_map (tag_text t k)).
Proof.
  unfold tag_text. destruct (assoc_get t k) as [[v|]|]; reflexivity.
Qed.

Lemma first_label_tags (t : tagmap) (keys : list string) :
  first_label
    (map (fun k => match assoc_get t k with
                   | Some v => tag_json v
                   | None => JStr ""
                   end) keys)
  = Ok (first_match (map (tag_text t) keys)).
Proof.
  induction keys as [|k keys IH]; [reflexivity|].
  cbn [map first_label first_match]. rewrite label_of_tag. cbn [bind].
  destruct (assoc_get label_map (tag_text t k)); [reflexivity | exact IH].
Qed.

Lemma friendly_name_by_kind {rt : PyRuntime} (t : tagmap) :
  (amenity <- py_get (tags_json t) "amenity" (JStr "") ;;
   highway <- py_get (tags_json t) "highway" (JStr "") ;;
   leisure <- py_get (tags_json t) "leisure" (JStr "") ;;
   shop <- py_get (tags_json t) "shop" (JStr "") ;;
   l <- first_label [amenity; highway; leisure; shop] ;;
   match l with
   | Some label => Ok label
   | None => Ok "Accessible Place"
   end) = Ok (label_by_kind t).
Proof.
  rewrite !py_get_tags. cbn [bind].
  pose proof (first_label_tags t priority_keys) as H.
  cbn [map priority_keys] in H. rewrite H. cbn [bind].
  unfold label_by_kind. cbn [map priority_keys].
  destruct (first_match _); reflexivity.
Qed.

Lemma friendly_name_on_tags {rt : PyRuntime} (t : tagmap) :
  friendly_name (tags_json t) = Ok (display_name t).
Proof.
  unfold friendly_name, display_name.
  rewrite py_get_tags. cbn [bind].
  destruct (assoc_get t "name") as [[n|]|]; cbn [tag_json truthy negb].
  - destruct (String.eqb n ""); cbn [negb].
    + apply friendly_name_by_kind.
    + reflexivity.
  - apply friendly_name_by_kind.
  - apply friendly_name_by_kind.
Qed.

(** C4. On every tag mapping [friendly_name] returns the display name of
    the labelling rule: the title-cased name when the name tag is present
    and non-empty, otherwise the first match of the amenity, highway,
    leisure and shop values (in that order) in the label table, otherwise
    "Accessible Place"; the table maps "toilets" to "Public Washroom" and
    "hospital" to "Hospital (Has Washrooms)". *)
Theorem friendly_name_display_name {rt : PyRuntime} (t : tagmap) :
  friendly_name (tags_json t) = Ok (display_name t)
  /\ assoc_get label_map "toilets" = Some "Public Washroom"
  /\ assoc_get label_map "hospital" = Some "Hospital (Has Washrooms)"
  /\ fallback_label = "Accessible Place".
Proof.
  split; [apply friendly_name_on_tags|]. repeat split.
Qed.

(** The examples of the specification. *)
Example friendly_name_toilets :
  friendly_name (rt := reference_runtime)
    (tags_json [("amenity", Some "toilets")]) = Ok "Public Washroom".
Proof. reflexivity. Qed.

Example friendly_name_title_cased :
  friendly_name (rt := reference_runtime)
    (tags_json [("amenity", Some "toilets"); ("name", Some "city central park")])
  = Ok "City Central Park".
Proof. reflexivity. Qed.

Example friendly_name_priority :
  friendly_name (rt := reference_runtime)
    (tags_json [("shop", Some "mall"); ("leisure", Some "park");
                ("amenity", Some "kiosk")]) = Ok "Park".
Proof. reflexivity. Qed.

(** ** Ranking: the stable sort and the slice *)

Lemma insert_place_perm p l : Permutation (insert_place p l) (p :: l).
Proof.
  induction l as [|q l IH]; simpl; [apply Permutation_refl|].
  destruct (distance_m p <=? distance_m q).
  - apply Permutation_refl.
  - eapply perm_trans; [apply perm_skip, IH | apply perm_swap].
Qed.

Lemma sort_places_perm l : Permutation (sort_places l) l.
Proof.
  induction l as [|p l IH]; simpl; [constructor|].
  eapply perm_trans; [apply insert_place_perm | apply perm_skip, IH].
Qed.

Lemma insert_place_sorted p l :
  StronglySorted nearer l -> StronglySorted nearer (insert_place p l).
Proof.
  induction 1 as [|q l Hs IH Hq]; simpl.
  - repeat constructor.
  - destruct (Z.leb_spec (distance_m p) (distance_m q)) as [Hle|Hgt].
    + constructor; [constructor; assumption|].
      constructor; [exact Hle|].
      eapply Forall_impl; [|exact Hq].
      intros x Hx. unfold nearer in *. lia.
    + constructor; [exact IH|].
      apply (Permutation_Forall (Permutation_sym (insert_place_perm p l))).
      constructor; [unfold nearer; lia | exact Hq].
Qed.

Lemma sort_places_sorted l : StronglySorted nearer (sort_places l).
Proof.
  induction l as [|p l IH]; simpl; [constructor|].
  apply insert_place_sorted, IH.
Qed.

Lemma firstn_incl {A : Type} n (l : list A) x :
  In x (firstn n l) -> In x l.
Proof.
  revert n. induction l as [|a l IH]; intros [|n]; simpl; try tauto.
  intros [H|H]; [left; exact H | right; eapply IH, H].
Qed.

Lemma firstn_sorted n l :
  StronglySorted nearer l -> StronglySorted nearer (firstn n l).
Proof.
  intros Hs. revert n.
  induction Hs as [|q l Hs IH Hq]; intros [|n]; simpl; try constructor.
  - apply IH.
  - rewrite Forall_forall in *. intros x Hx.
    apply Hq. eapply firstn_incl, Hx.
Qed.

(** A place nearer than all the others is ranked first. *)
Lemma insert_place_head p l :
  Forall (fun q => distance_m p <= distance_m q) l ->
  insert_place p l = p :: l.
Proof.
  intros H. destruct H as [|q l Hq _]; simpl; [reflexivity|].
  apply Z.leb_le in Hq. rewrite Hq. reflexivity.
Qed.

Lemma sort_places_head l1 p l2 :
  Forall (fun q => distance_m p < distance_m q) l1 ->
  Forall (fun q => distance_m p <= distance_m q) l2 ->
  sort_places (l1 ++ p :: l2) = p :: sort_places (l1 ++ l2).
Proof.
  intros H1 H2. induction H1 as [|q l1 Hq H1 IH]; simpl.
  - apply insert_place_head.
    apply (Permutation_Forall (Permutation_sym (sort_places_perm l2))), H2.
  - rewrite IH. simpl.
    destruct (Z.leb_spec (distance_m q) (distance_m p)); [lia | reflexivity].
Qed.

(** What the [try] block returns is the first 15 of the ranking. *)
Lemma try_block_ranked {rt : PyRuntime} lat lng up ps :
  try_block lat lng up = Ok ps ->
  exists all, ps = firstn 15 (sort_places all).
Proof.
  unfold try_block. destruct up as [e|e|e|payload]; try discriminate.
  destruct (py_get payload "elements" (JList [])) as [elements|]; [|discriminate].
  cbn [bind]. destruct (py_iter elements) as [els|]; [|discriminate].
  cbn [bind]. destruct (loop lat lng els ([], [])) as [st|]; [|discriminate].
  cbn [bind]. intros [= <-]. exists (fst st). reflexivity.
Qed.

(** C2. Whatever the input and whatever the upstream returns, the list
    the handler returns has at most 15 entries and is in non-decreasing
    order of [distance_m]. *)
Theorem nearby_capped_and_sorted {rt : PyRuntime} (lat lng : float)
    (post : string -> upstream) (filter : option string) :
  (List.length (places (nearby lat lng post filter)) <= 15)%nat
  /\ StronglySorted nearer (places (nearby lat lng post filter)).
Proof.
  unfold nearby.
  destruct (try_block lat lng _) as [ps|e] eqn:Htry; cbn [places].
  - apply try_block_ranked in Htry as [all ->]. split.
    + apply firstn_le_length.
    + apply firstn_sorted, sort_places_sorted.
  - split; [simpl; lia | constructor].
Qed.

(** ** The loop: elements that are skipped, elements that raise *)

Section Loop.

Context {rt : PyRuntime}.
Variables lat lng : float.

Lemma loop_app (xs ys : list json) (st : loop_state) :
  loop lat lng (xs ++ ys) st
  = (st' <- loop lat lng xs st ;; loop lat lng ys st').
Proof.
  revert st. induction xs as [|x xs IH]; intros st; simpl; [reflexivity|].
  destruct (step lat lng st x) as [st'|e]; simpl; [apply IH | reflexivity].
Qed.

(** An element whose iteration leaves the state as it was can be taken out
    of the list. *)
Lemma loop_skip (el : json) (pre suf : list json) :
  (forall st, step lat lng st el = Ok st) ->
  forall st, loop lat lng (pre ++ el :: suf) st = loop lat lng (pre ++ suf) st.
Proof.
  intros Hskip st. rewrite !loop_app.
  destruct (loop lat lng pre st) as [st'|e]; simpl; [|reflexivity].
  rewrite Hskip. reflexivity.
Qed.

(** An element whose iteration raises in every state makes the loop raise. *)
Lemma loop_raises (el : json) (els : list json) :
  In el els ->
  (forall st, exists e, step lat lng st el = Raise e) ->
  forall st, exists e, loop lat lng els st = Raise e.
Proof.
  intros Hin Hraise. induction els as [|x els IH]; [destruct Hin|].
  intros st. simpl. destruct Hin as [->|Hin].
  - destruct (Hraise st) as [e ->]. exists e. reflexivity.
  - destruct (step lat lng st x) as [st'|e]; simpl.
    + apply IH, Hin.
    + exists e. reflexivity.
Qed.

Lemma step_centerless (d : list (string * json)) (ty : json) :
  dict_get d "type" = Some ty ->
  eq_str ty "node" = false ->
  truthy (center_of d) = false ->
  forall st, step lat lng st (JDict d) = Ok st.
Proof.
  intros Hty Hnode Hcenter [ps seen].
  unfold step, locate, py_get, py_getitem.
  destruct (dict_get d "tags"); cbn [bind]; rewrite Hty; cbn [bind];
    rewrite Hnode; unfold center_of in Hcenter;
    destruct (dict_get d "center"); cbn [bind]; rewrite Hcenter;
    reflexivity.
Qed.

Lemma step_missing_key (el : json) (k : string) :
  missing_key el = Some k ->
  forall st, step lat lng st el = Raise (mk_exn KeyError (quoted k)).
Proof.
  intros Hk [ps seen]. destruct el as [| | | | |l|d]; try discriminate Hk.
  unfold missing_key in Hk. unfold step, locate, py_get, py_getitem.
  destruct (dict_get d "tags"); cbn [bind];
    (destruct (dict_get d "type") as [ty|];
     [ cbn [bind]; destruct (eq_str ty "node"); [|discriminate Hk];
       destruct (dict_get d "lat"); cbn [bind];
       [ destruct (dict_get d "lon"); [discriminate Hk|] | ];
       injection Hk as <-; reflexivity
     | injection Hk as <-; reflexivity ]).
Qed.

End Loop.

(** C7. An element that is not a node and has no centre (the key is
    absent, or its value is empty) is skipped: its iteration leaves
    [places] and [seen] as they were, so the loop, and the result of the
    [try] block, are those of the element list without it. *)
Theorem centerless_area_is_skipped {rt : PyRuntime} (lat lng : float)
    (d : list (string * json)) (ty : json) :
  dict_get d "type" = Some ty ->
  eq_str ty "node" = false ->
  truthy (center_of d) = false ->
  (forall st, step lat lng st (JDict d) = Ok st)
  /\ (forall pre suf st,
        loop lat lng (pre ++ JDict d :: suf) st = loop lat lng (pre ++ suf) st)
  /\ (forall pre suf,
        try_block lat lng
          (Body (JDict [("elements", JList (pre ++ JDict d :: suf))]))
        = try_block lat lng (Body (JDict [("elements", JList (pre ++ suf))]))).
Proof.
  intros Hty Hnode Hcenter.
  pose proof (step_centerless lat lng d ty Hty Hnode Hcenter) as Hskip.
  split; [exact Hskip|]. split.
  - intros pre suf st. apply loop_skip, Hskip.
  - intros pre suf. cbn [try_block py_get dict_get String.eqb Ascii.eqb
      Bool.eqb bind py_iter].
    rewrite (loop_skip lat lng (JDict d) pre suf Hskip). reflexivity.
Qed.

(** C9. One malformed element (no ["type"], or a node without ["lat"] or
    ["lon"]) anywhere in the ["elements"] array turns the whole result
    into the error response with an empty list, whatever was built from
    the elements before it; when the elements before it raise nothing,
    the error is the [KeyError] of the missing key. *)
Theorem malformed_element_degrades {rt : PyRuntime} (lat lng : float)
    (post : string -> upstream) (filter : option string)
    (payload : json) (els : list json) (el : json) (k : string) :
  post (build_query lat lng (filter_or_default filter)) = Body payload ->
  py_get payload "elements" (JList []) = Ok (JList els) ->
  In el els ->
  missing_key el = Some k ->
  (exists msg, nearby lat lng post filter
               = {| places := []; error := Some msg |})
  /\ (forall pre suf st,
        els = (pre ++ el :: suf)%list ->
        loop lat lng pre ([], []) = Ok st ->
        nearby lat lng post filter
        = {| places := []; error := Some (quoted k) |}).
Proof.
  intros Hpost Hels Hin Hk.
  pose proof (step_missing_key lat lng el k Hk) as Hraise.
  unfold nearby. fold (filter_or_default filter). rewrite Hpost.
  unfold try_block. rewrite Hels. cbn [bind py_iter]. split.
  - destruct (loop_raises lat lng el els Hin
                (fun st => ex_intro _ _ (Hraise st)) ([], [])) as [e ->].
    exists (exn_msg e). reflexivity.
  - intros pre suf st -> Hpre.
    rewrite loop_app, Hpre. cbn [bind loop]. rewrite Hraise. reflexivity.
Qed.

Lemma centerless_area_is_skipped_witness :
  (forall st, step (rt := reference_runtime) bangalore_lat bangalore_lng st
                (JDict hospital_way_without_center) = Ok st)
  /\ (forall pre suf st,
        loop (rt := reference_runtime) bangalore_lat bangalore_lng
          (pre ++ JDict hospital_way_without_center :: suf) st
        = loop (rt := reference_runtime) bangalore_lat bangalore_lng
            (pre ++ suf) st)
  /\ (forall pre suf,
        try_block (rt := reference_runtime) bangalore_lat bangalore_lng
          (Body (JDict [("elements",
                         JList (pre ++ JDict hospital_way_without_center :: suf))]))
        = try_block (rt := reference_runtime) bangalore_lat bangalore_lng
            (Body (JDict [("elements", JList (pre ++ suf))]))).
Proof.
  apply (centerless_area_is_skipped (rt := reference_runtime)
           bangalore_lat bangalore_lng hospital_way_without_center (JStr "way"));
    reflexivity.
Defined.

Lemma malformed_element_degrades_witness :
  (exists msg,
     nearby (rt := reference_runtime) bangalore_lat bangalore_lng
       (fun _ => Body (JDict [("elements", JList [toilets_node; node_without_type])]))
       None
     = {| places := []; error := Some msg |})
  /\ (forall pre suf st,
        [toilets_node; node_without_type] = (pre ++ node_without_type :: suf)%list ->
        loop (rt := reference_runtime) bangalore_lat bangalore_lng pre ([], [])
        = Ok st ->
        nearby (rt := reference_runtime) bangalore_lat bangalore_lng
          (fun _ => Body (JDict [("elements", JList [toilets_node; node_without_type])]))
          None
        = {| places := []; error := Some (quoted "type") |}).
Proof.
  apply (malformed_element_degrades (rt := reference_runtime)
           bangalore_lat bangalore_lng _ None
           (JDict [("elements", JList [toilets_node; node_without_type])])
           [toilets_node; node_without_type] node_without_type "type").
  - reflexivity.
  - reflexivity.
  - simpl. tauto.
  - reflexivity.
Defined.

(** ** Failures: the [except] path *)

Lemma with_message_bind {A B : Type} (c : result A) (k : A -> result B) :
  with_message c -> (forall a, with_message (k a)) -> with_message (bind c k).
Proof.
  destruct c as [a|e]; simpl; intros Hc Hk; [apply Hk | exact Hc].
Qed.

Lemma with_message_ok {A : Type} (a : A) : with_message (Ok a).
Proof. exact I. Qed.

Lemma quoted_message (s t : string) : (quoted s ++ t)%string <> "".
Proof. unfold quoted, squote. simpl. discriminate. Qed.

Lemma py_get_message o k default : with_message (py_get o k default).
Proof.
  destruct o as [|?|?|?|?|?|d]; simpl; try discriminate.
  destruct (dict_get d k); exact I.
Qed.

Lemma py_getitem_message o k : with_message (py_getitem o k).
Proof.
  destruct o as [|?|?|?|?|?|d]; simpl; try discriminate.
  destruct (dict_get d k); simpl; [exact I|].
  unfold quoted, squote. simpl. discriminate.
Qed.

Lemma py_iter_message v : with_message (py_iter v).
Proof. destruct v; simpl; try discriminate; exact I. Qed.

Lemma py_round4_message v : with_message (py_round4 v).
Proof. destruct v; simpl; try exact I; discriminate. Qed.

Lemma float_of_int_message z : with_message (float_of_int z).
Proof.
  unfold float_of_int.
  destruct (binary_normalize prec emax z 0 false); simpl; try exact I.
  discriminate.
Qed.

Lemma py_sub_message v x : with_message (py_sub v x).
Proof.
  destruct v; simpl; try exact I; try discriminate;
    (apply with_message_bind; [apply float_of_int_message | intros; exact I]).
Qed.

Lemma math_radians_message v : with_message (math_radians v).
Proof.
  destruct v; simpl; try exact I; try discriminate;
    (apply with_message_bind; [apply float_of_int_message | intros; exact I]).
Qed.

Lemma math_sqrt_message x : with_message (math_sqrt x).
Proof.
  unfold math_sqrt. destruct (is_nan (sqrt x) && negb (is_nan x)); simpl;
    [discriminate | exact I].
Qed.

Lemma int_of_float_message x : with_message (int_of_float x).
Proof.
  unfold int_of_float. destruct (Prim2SF x); simpl; try exact I; discriminate.
Qed.

Ltac message_step :=
  first
    [ apply with_message_ok
    | apply py_get_message
    | apply py_getitem_message
    | apply py_iter_message
    | apply py_round4_message
    | apply float_of_int_message
    | apply py_sub_message
    | apply math_radians_message
    | apply math_sqrt_message
    | apply int_of_float_message
    | apply sin_message; assumption
    | apply cos_message; assumption
    | apply atan2_message; assumption
    | apply pow_message; assumption
    | apply with_message_bind; [ | intros ] ].

Section Messages.

Context {rt : PyRuntime}.
Hypothesis Hrt : runtime_messages rt.
Variables lat lng : float.

Lemma haversine_message elat elng : with_message (haversine lat lng elat elng).
Proof. unfold haversine. repeat message_step. Qed.

Lemma label_of_message key : with_message (label_of key).
Proof. destruct key; simpl; try exact I; discriminate. Qed.

Lemma first_label_message keys : with_message (first_label keys).
Proof.
  induction keys as [|key keys IH]; simpl; [exact I|].
  apply with_message_bind; [apply label_of_message|].
  intros [label|]; [exact I | exact IH].
Qed.

Lemma py_title_message v : with_message (py_title v).
Proof. destruct v; simpl; try exact I; discriminate. Qed.

Lemma friendly_name_message tags : with_message (friendly_name tags).
Proof.
  unfold friendly_name. message_step; [message_step|].
  destruct (truthy a); [apply py_title_message|].
  do 4 (message_step; [message_step|]).
  apply with_message_bind; [apply first_label_message|].
  intros [label|]; exact I.
Qed.

Lemma make_place_message tags elat elng dist :
  with_message (make_place tags elat elng dist).
Proof.
  unfold make_place. message_step; [apply friendly_name_message|].
  repeat message_step.
Qed.

Lemma locate_message el : with_message (locate lat lng el).
Proof.
  unfold locate. message_step; [message_step|].
  destruct (eq_str a "node"); [repeat message_step|].
  message_step; [message_step|].
  destruct (negb (truthy a0)); repeat message_step.
Qed.

Lemma step_message st el : with_message (step lat lng st el).
Proof.
  destruct st as [ps seen]. unfold step.
  message_step; [message_step|].
  message_step; [apply locate_message|].
  destruct a0 as [[elat elng]|]; [|exact I].
  unfold coord_key_of. message_step; [repeat message_step|].
  destruct (key_in a0 seen); [exact I|].
  message_step; [apply haversine_message|].
  message_step; [apply make_place_message | exact I].
Qed.

Lemma loop_message els st : with_message (loop lat lng els st).
Proof.
  revert st. induction els as [|el els IH]; intros st; simpl; [exact I|].
  apply with_message_bind; [apply step_message | intros; apply IH].
Qed.

Lemma body_message payload : with_message (try_block lat lng (Body payload)).
Proof.
  unfold try_block. repeat message_step. apply loop_message.
Qed.

End Messages.


Lemma reference_messages : runtime_messages reference_runtime.
Proof.
  split; simpl.
  - intros x. unfold Reference.ref_sin.
    destruct (is_nan x); [exact I|].
    destruct (is_infinity x); [discriminate | exact I].
  - intros x. unfold Reference.ref_cos.
    destruct (is_nan x); [exact I|].
    destruct (is_infinity x); [discriminate|].
    destruct (abs _ <=? 1)%float; [exact I|].
    destruct (_ <? 0)%float; exact I.
  - intros y x. unfold Reference.ref_atan2.
    repeat match goal with
    | |- with_message (if ?b then _ else _) => destruct b
    end; exact I.
  - intros x [|p|p]; unfold Reference.ref_pow; [exact I| |];
      repeat match goal with
      | |- with_message (if ?b then _ else _) => destruct b
      end; try exact I; discriminate.
Qed.



(** Nor does an element of the wrong shape: a ["type"] that is a number
    and a centre without coordinates give a Place Result. *)
Example odd_element_is_no_error :
  error (nearby (rt := reference_runtime) bangalore_lat bangalore_lng
           (fun _ => Body (JDict [("elements",
              JList [JDict [("type", JInt 7); ("center", JDict [("x", JInt 1)])]])]))
           None) = None.
Proof. vm_compute. reflexivity. Qed.

(** A payload that is not an object raises, with a message. *)
Example list_payload_is_an_error :
  nearby (rt := reference_runtime) bangalore_lat bangalore_lng
    (fun _ => Body (JList [])) None
  = {| places := []; error := Some "'list' object has no attribute 'get'" |}.
Proof. reflexivity. Qed.

(** ** Deduplication *)

(** Equality of keys is symmetric and transitive (it is not reflexive: a
    NaN coordinate equals nothing). *)
Lemma numval_eqb_eq a b : numval_eqb a b = true -> a = b.
Proof.
  destruct a as [|s| |s m e], b as [|t| |t m' e']; simpl; try discriminate.
  - intros H. apply Bool.eqb_prop in H. congruence.
  - reflexivity.
  - intros H. apply andb_prop in H as [H He]. apply andb_prop in H as [Hs Hm].
    apply Bool.eqb_prop in Hs. apply Pos.eqb_eq in Hm. apply Z.eqb_eq in He.
    congruence.
Qed.

Lemma num_eq_sym a b : num_eq a b = true -> num_eq b a = true.
Proof.
  unfold num_eq. intros H. pose proof (numval_eqb_eq _ _ H) as E.
  rewrite E in H. rewrite E. exact H.
Qed.

Lemma num_eq_trans a b c :
  num_eq a b = true -> num_eq b c = true -> num_eq a c = true.
Proof.
  unfold num_eq. intros H1 H2. rewrite (numval_eqb_eq _ _ H1). exact H2.
Qed.

Lemma key_eq_sym a b : key_eq a b = true -> key_eq b a = true.
Proof.
  unfold key_eq. intros H. apply andb_prop in H as [H1 H2].
  rewrite (num_eq_sym _ _ H1), (num_eq_sym _ _ H2). reflexivity.
Qed.

Lemma key_eq_trans a b c :
  key_eq a b = true -> key_eq b c = true -> key_eq a c = true.
Proof.
  unfold key_eq. intros H H'.
  apply andb_prop in H as [H1 H2]. apply andb_prop in H' as [H1' H2'].
  rewrite (num_eq_trans _ _ _ H1 H1'), (num_eq_trans _ _ _ H2 H2').
  reflexivity.
Qed.

Lemma key_eq_false_sym a b : key_eq a b = false -> key_eq b a = false.
Proof.
  intros H. destruct (key_eq b a) eqn:E; [|reflexivity].
  apply key_eq_sym in E. congruence.
Qed.

Lemma key_in_false k seen :
  key_in k seen = false <-> forall k', In k' seen -> key_eq k k' = false.
Proof.
  unfold key_in. induction seen as [|x seen IH]; simpl.
  - split; [intros _ k' [] | reflexivity].
  - rewrite orb_false_iff, IH. split.
    + intros [Hx Hs] k' [<-|Hin]; [exact Hx | apply Hs, Hin].
    + intros H. split; [apply H; left; reflexivity|].
      intros k' Hin. apply H. right. exact Hin.
Qed.

Lemma key_in_true k seen :
  key_in k seen = true <-> exists k', In k' seen /\ key_eq k k' = true.
Proof. unfold key_in. apply existsb_exists. Qed.

Lemma key_in_app k s1 s2 : key_in k (s1 ++ s2) = key_in k s1 || key_in k s2.
Proof. unfold key_in. apply existsb_app. Qed.

Section Dedup.

Context {rt : PyRuntime}.
Variables lat lng : float.

Lemma locate_is_dict el c :
  locate lat lng el = Ok c -> exists d, el = JDict d.
Proof.
  destruct el as [|?|?|?|?|?|d]; try discriminate.
  intros _. exists d. reflexivity.
Qed.

Lemma make_place_coords tags a b d p :
  make_place tags a b d = Ok p ->
  p_lat p = a /\ p_lng p = b /\ distance_m p = d
  /\ friendly_name tags = Ok (name p).
Proof.
  unfold make_place.
  destruct (friendly_name tags) as [nm|]; [|discriminate]. cbn [bind].
  repeat (match goal with
          | |- context [py_get ?o ?k ?v] =>
              destruct (py_get o k v); [|discriminate]; cbn [bind]
          end).
  intros [= <-]. simpl. repeat split.
Qed.

(** An iteration on an element whose key is in [seen] changes nothing. *)
Lemma step_duplicate el a b k ps seen :
  locate lat lng el = Ok (Some (a, b)) ->
  coord_key_of a b = Ok k ->
  key_in k seen = true ->
  step lat lng (ps, seen) el = Ok (ps, seen).
Proof.
  intros Hloc Hkey Hin. destruct (locate_is_dict _ _ Hloc) as [d ->].
  unfold step. unfold py_get at 1.
  destruct (dict_get d "tags"); cbn [bind]; rewrite Hloc; cbn [bind];
    rewrite Hkey; cbn [bind]; rewrite Hin; reflexivity.
Qed.

(** An iteration either leaves the state, or appends one place, built
    from the element, and its key, which no key of [seen] equals. *)
Lemma step_cases el ps seen ps' seen' :
  step lat lng (ps, seen) el = Ok (ps', seen') ->
  (ps' = ps /\ seen' = seen)
  \/ exists tags a b k d p,
       py_get el "tags" (JDict []) = Ok tags
       /\ locate lat lng el = Ok (Some (a, b))
       /\ coord_key_of a b = Ok k
       /\ key_in k seen = false
       /\ haversine lat lng a b = Ok d
       /\ make_place tags a b d = Ok p
       /\ ps' = (ps ++ [p])%list /\ seen' = (seen ++ [k])%list.
Proof.
  unfold step.
  destruct (py_get el "tags" (JDict [])) as [tags|] eqn:Htags; [|discriminate].
  cbn [bind].
  destruct (locate lat lng el) as [[[a b]|]|] eqn:Hloc; [| |discriminate];
    cbn [bind].
  - destruct (coord_key_of a b) as [k|] eqn:Hkey; [|discriminate]. cbn [bind].
    destruct (key_in k seen) eqn:Hin.
    + intros [= <- <-]. left. split; reflexivity.
    + destruct (haversine lat lng a b) as [d|] eqn:Hd; [|discriminate].
      cbn [bind].
      destruct (make_place tags a b d) as [p|] eqn:Hp; [|discriminate].
      cbn [bind]. intros [= <- <-]. right.
      exists tags, a, b, k, d, p. repeat split; reflexivity || assumption.
  - intros [= <- <-]. left. split; reflexivity.
Qed.

Lemma distinct_snoc seen k :
  distinct seen -> key_in k seen = false -> distinct (seen ++ [k]).
Proof.
  intros Hd Hk s1 x s2 E k' Hin.
  destruct (exists_last (l := s2)) as [s2' [y ->]].
  { intros ->. destruct Hin. }
  change (s1 ++ x :: s2' ++ [y])%list with (s1 ++ (x :: s2') ++ [y])%list in E.
  rewrite app_assoc in E. apply app_inj_tail in E as [-> <-].
  apply in_app_or in Hin as [Hin|[<-|[]]].
  - eapply Hd; [reflexivity | exact Hin].
  - rewrite key_in_false in Hk. apply Hk.
    apply in_or_app. right. left. reflexivity.
Qed.

Lemma inv_init : inv ([], []).
Proof.
  split; [constructor|].
  intros [|? ?] k s2 E; discriminate E.
Qed.

Lemma step_inv st el st' :
  inv st -> step lat lng st el = Ok st' -> inv st'.
Proof.
  destruct st as [ps seen], st' as [ps' seen']. intros [Hk Hd] Hstep.
  apply step_cases in Hstep
    as [[-> ->]|(tags & a & b & k & d & p & _ & _ & Hkey & Hin & _ & Hp & -> & ->)].
  - split; assumption.
  - apply make_place_coords in Hp as (Ha & Hb & _). split; simpl.
    + apply Forall2_app; [exact Hk|].
      constructor; [|constructor].
      unfold place_key. rewrite Ha, Hb. exact Hkey.
    + apply distinct_snoc; assumption.
Qed.

Lemma loop_inv els st st' :
  inv st -> loop lat lng els st = Ok st' -> inv st'.
Proof.
  revert st. induction els as [|el els IH]; intros st Hinv; simpl.
  - intros [= <-]. exact Hinv.
  - destruct (step lat lng st el) as [st1|] eqn:Hstep; [|discriminate].
    cbn [bind]. apply IH. eapply step_inv; eassumption.
Qed.

(** The state only grows, by places and keys that correspond. *)
Lemma loop_grows els ps seen ps' seen' :
  loop lat lng els (ps, seen) = Ok (ps', seen') ->
  exists ps2 seen2,
    ps' = (ps ++ ps2)%list /\ seen' = (seen ++ seen2)%list
    /\ keys_of ps2 seen2.
Proof.
  revert ps seen. induction els as [|el els IH]; intros ps seen; cbn [loop].
  - intros [= <- <-]. exists [], []. rewrite !app_nil_r.
    repeat split. constructor.
  - destruct (step lat lng (ps, seen) el) as [[ps1 seen1]|] eqn:Hstep;
      [|discriminate].
    cbn [bind]. intros Hloop.
    apply IH in Hloop as (ps2 & seen2 & -> & -> & Hk2).
    apply step_cases in Hstep
      as [[-> ->]|(tags & a & b & k & d & p & _ & _ & Hkey & _ & _ & Hp & -> & ->)].
    + exists ps2, seen2. repeat split. exact Hk2.
    + exists (p :: ps2), (k :: seen2). rewrite <- !app_assoc.
      repeat split. constructor; [|exact Hk2].
      apply make_place_coords in Hp as (Ha & Hb & _).
      unfold place_key. rewrite Ha, Hb. exact Hkey.
Qed.

(** The iteration on an element whose key is not in [seen]. *)
Lemma step_first_seen el a b k ps seen :
  locate lat lng el = Ok (Some (a, b)) ->
  coord_key_of a b = Ok k ->
  key_in k seen = false ->
  step lat lng (ps, seen) el
  = (tags <- py_get el "tags" (JDict []) ;;
     dist <- haversine lat lng a b ;;
     p <- make_place tags a b dist ;;
     Ok ((ps ++ [p])%list, (seen ++ [k])%list)).
Proof.
  intros Hloc Hkey Hin. unfold step.
  destruct (py_get el "tags" (JDict [])) as [tags|]; [|reflexivity].
  cbn [bind]. rewrite Hloc. cbn [bind]. rewrite Hkey. cbn [bind].
  rewrite Hin. reflexivity.
Qed.

Lemma keys_of_in ps seen q :
  keys_of ps seen -> In q ps -> exists k, In k seen /\ place_key q = Ok k.
Proof.
  induction 1 as [|p k ps seen Hp _ IH]; intros Hin; [destruct Hin|].
  destruct Hin as [<-|Hin].
  - exists k. split; [left; reflexivity | exact Hp].
  - destruct (IH Hin) as (k' & Hk' & Hq).
    exists k'. split; [right; exact Hk' | exact Hq].
Qed.

(** The first element seen with a key gives a place, and no other place
    of the final list has an equal key. *)
Lemma loop_first_seen pre el suf a b k ps1 seen1 ps seen :
  loop lat lng pre ([], []) = Ok (ps1, seen1) ->
  locate lat lng el = Ok (Some (a, b)) ->
  coord_key_of a b = Ok k ->
  key_in k seen1 = false ->
  loop lat lng (pre ++ el :: suf) ([], []) = Ok (ps, seen) ->
  exists tags d p ps2,
    py_get el "tags" (JDict []) = Ok tags
    /\ haversine lat lng a b = Ok d
    /\ make_place tags a b d = Ok p
    /\ ps = (ps1 ++ p :: ps2)%list
    /\ forall q kq, In q (ps1 ++ ps2) -> place_key q = Ok kq ->
                    key_eq kq k = false.
Proof.
  intros Hpre Hloc Hkey Hin Hloop.
  pose proof (loop_inv _ _ _ inv_init Hloop) as [_ Hdist].
  pose proof (loop_inv _ _ _ inv_init Hpre) as [Hk1 _].
  cbn [fst snd] in Hdist, Hk1.
  rewrite loop_app, Hpre in Hloop. cbn [bind loop] in Hloop.
  rewrite (step_first_seen el a b k ps1 seen1 Hloc Hkey Hin) in Hloop.
  destruct (py_get el "tags" (JDict [])) as [tags|]; [|discriminate].
  cbn [bind] in Hloop.
  destruct (haversine lat lng a b) as [d|]; [|discriminate].
  cbn [bind] in Hloop.
  destruct (make_place tags a b d) as [p|] eqn:Hp; [|discriminate].
  cbn [bind] in Hloop.
  apply loop_grows in Hloop as (ps2 & seen2 & -> & -> & Hk2).
  exists tags, d, p, ps2. rewrite <- !app_assoc.
  do 4 (split; [reflexivity || assumption|]).
  intros q kq Hq Hkq. apply in_app_or in Hq as [Hq|Hq].
  - destruct (keys_of_in _ _ _ Hk1 Hq) as (k' & Hk' & Hq').
    rewrite Hkq in Hq'. injection Hq' as ->.
    apply key_eq_false_sym. rewrite key_in_false in Hin. apply Hin, Hk'.
  - destruct (keys_of_in _ _ _ Hk2 Hq) as (k' & Hk' & Hq').
    rewrite Hkq in Hq'. injection Hq' as ->.
    eapply (Hdist seen1 k seen2); [|exact Hk'].
    rewrite <- app_assoc. reflexivity.
Qed.

(** Once a key is in [seen], a later element with that key is dropped. *)
Lemma loop_drops_seen el a b k els suf ps seen :
  locate lat lng el = Ok (Some (a, b)) ->
  coord_key_of a b = Ok k ->
  key_in k seen = true ->
  loop lat lng (els ++ el :: suf) (ps, seen)
  = loop lat lng (els ++ suf) (ps, seen).
Proof.
  intros Hloc Hkey Hin. rewrite !loop_app.
  destruct (loop lat lng els (ps, seen)) as [[ps' seen']|] eqn:Hloop;
    [|reflexivity].
  cbn [bind loop].
  apply loop_grows in Hloop as (ps2 & seen2 & -> & -> & _).
  rewrite (step_duplicate el a b k); [reflexivity | assumption..|].
  rewrite key_in_app, Hin. reflexivity.
Qed.

End Dedup.



(** The example, run: one Place Result, that of the first element. *)
Example duplicates_collapse_run :
  map (fun p => (name p, p_lat p, distance_m p))
      (places (nearby (rt := reference_runtime) bangalore_lat bangalore_lng
                 (fun _ => Body (JDict [("elements",
                                         JList [first_seen; later_seen])]))
                 None))
  = [("Hospital (Has Washrooms)", JFloat 12.97150, 11)].
Proof. vm_compute. reflexivity. Qed.

(** ** No distance threshold *)

Section NoThreshold.

Context {rt : PyRuntime}.
Variables lat lng : float.

Lemma step_measured el ps seen ps' seen' :
  measured lat lng ps -> step lat lng (ps, seen) el = Ok (ps', seen') -> measured lat lng ps'.
Proof.
  intros Hm Hstep. apply step_cases in Hstep
    as [[-> _]|(tags & a & b & k & d & p & _ & _ & _ & _ & Hd & Hp & -> & _)].
  - exact Hm.
  - apply Forall_app. split; [exact Hm|].
    constructor; [|constructor].
    apply make_place_coords in Hp as (-> & -> & -> & _). exact Hd.
Qed.

Lemma loop_measured els st st' :
  measured lat lng (fst st) -> loop lat lng els st = Ok st' -> measured lat lng (fst st').
Proof.
  revert st. induction els as [|el els IH]; intros st Hm; cbn [loop].
  - intros [= <-]. exact Hm.
  - destruct (step lat lng st el) as [st1|] eqn:Hstep; [|discriminate].
    cbn [bind]. apply IH. destruct st as [ps seen], st1 as [ps1 seen1].
    eapply step_measured; eassumption.
Qed.

(** The key of every located element is in [seen] at the end, itself or
    as an equal key seen before it. *)
Lemma loop_represents els el a b k ps0 seen0 ps seen :
  loop lat lng els (ps0, seen0) = Ok (ps, seen) ->
  In el els ->
  locate lat lng el = Ok (Some (a, b)) ->
  coord_key_of a b = Ok k ->
  exists k', In k' seen /\ (k' = k \/ key_eq k k' = true).
Proof.
  revert ps0 seen0. induction els as [|x els IH]; intros ps0 seen0 Hloop Hin;
    [destruct Hin|].
  intros Hloc Hkey. cbn [loop] in Hloop.
  destruct (step lat lng (ps0, seen0) x) as [[ps1 seen1]|] eqn:Hstep;
    [|discriminate].
  cbn [bind] in Hloop. destruct Hin as [->|Hin].
  - pose proof (loop_grows _ _ _ _ _ _ _ Hloop) as (ps2 & seen2 & _ & -> & _).
    destruct (key_in k seen0) eqn:Hseen.
    + rewrite (step_duplicate lat lng el a b k ps0 seen0 Hloc Hkey Hseen) in Hstep.
      injection Hstep as <- <-.
      apply key_in_true in Hseen as (k' & Hk' & Heq).
      exists k'. split; [apply in_or_app; left; exact Hk' | right; exact Heq].
    + rewrite (step_first_seen lat lng el a b k ps0 seen0 Hloc Hkey Hseen) in Hstep.
      destruct (py_get el "tags" (JDict [])) as [tags|]; [|discriminate].
      cbn [bind] in Hstep.
      destruct (haversine lat lng a b) as [d|]; [|discriminate].
      cbn [bind] in Hstep.
      destruct (make_place tags a b d) as [p|]; [|discriminate].
      cbn [bind] in Hstep. injection Hstep as <- <-.
      exists k. split; [|left; reflexivity].
      apply in_or_app. left. apply in_or_app. right. left. reflexivity.
  - eapply IH; eassumption.
Qed.

Lemma keys_of_in_seen ps seen k :
  keys_of ps seen -> In k seen -> exists p, In p ps /\ place_key p = Ok k.
Proof.
  induction 1 as [|p k0 ps seen Hp _ IH]; intros Hin; [destruct Hin|].
  destruct Hin as [<-|Hin].
  - exists p. split; [left; reflexivity | exact Hp].
  - destruct (IH Hin) as (q & Hq & Hkq).
    exists q. split; [right; exact Hq | exact Hkq].
Qed.

End NoThreshold.

(** A place of the ranking is returned unless the 15 returned are all at
    least as near. *)
Lemma firstn_sorted_cut n l p :
  StronglySorted nearer l -> In p l ->
  In p (firstn n l)
  \/ (List.length (firstn n l) = n
      /\ Forall (fun q => distance_m q <= distance_m p) (firstn n l)).
Proof.
  intros Hs Hin. rewrite <- (firstn_skipn n l) in Hin, Hs.
  apply in_app_or in Hin as [Hin|Hin]; [left; exact Hin|right]. split.
  - destruct (Nat.le_gt_cases n (List.length l)) as [Hle|Hgt].
    + apply firstn_length_le, Hle.
    + rewrite skipn_all2 in Hin by lia. destruct Hin.
  - clear - Hs Hin. induction (firstn n l) as [|q f IH]; [constructor|].
    simpl in Hs. inversion Hs as [|? ? Hs' Hq]; subst.
    constructor; [|apply IH, Hs'].
    rewrite Forall_forall in Hq. apply Hq, in_or_app. right. exact Hin.
Qed.

Lemma string_app_assoc (s1 s2 s3 : string) :
  ((s1 ++ s2) ++ s3 = s1 ++ (s2 ++ s3))%string.
Proof.
  induction s1 as [|c s1 IH]; simpl; [reflexivity | rewrite IH; reflexivity].
Qed.



(** The slice is no distance threshold. Of sixteen elements with
    sixteen keys, all within the radius, the loop builds sixteen places
    and the handler returns the nearest fifteen. *)
Example sixteenth_element_is_left_out :
  map (fun p => (p_lat p, distance_m p))
      (places (nearby (rt := reference_runtime) bangalore_lat bangalore_lng
                 (fun _ => Body (JDict [("elements", JList sixteen_nodes)]))
                 None))
  = [ (JFloat 12.9726, 111); (JFloat 12.9736, 222); (JFloat 12.9746, 333);
      (JFloat 12.9756, 444); (JFloat 12.9766, 555); (JFloat 12.9776, 667);
      (JFloat 12.9786, 778); (JFloat 12.9796, 889); (JFloat 12.9806, 1000);
      (JFloat 12.9816, 1111); (JFloat 12.9826, 1223); (JFloat 12.9836, 1334);
      (JFloat 12.9846, 1445); (JFloat 12.9856, 1556); (JFloat 12.9866, 1667) ].
Proof. vm_compute. reflexivity. Qed.

(** ** Binary64 arithmetic

    Facts about IEEE operations that the distance of a point to itself
    rests on: [x - x] is [+0] for a finite [x], and a product of floats
    whose exponents are small enough does not overflow. *)

Lemma digits2_pos_size p : digits2_pos p = Pos.size p.
Proof. induction p; simpl; congruence. Qed.

Lemma digits_lower p : Zpos p < 2 ^ Zpos (digits2_pos p).
Proof.
  rewrite digits2_pos_size, <- Pos2Z.inj_pow. apply Pos2Z.pos_lt_pos, Pos.size_gt.
Qed.

Lemma digits_upper p k : 0 <= k -> Zpos p < 2 ^ k -> Zpos (digits2_pos p) <= k.
Proof.
  intros Hk Hp. rewrite digits2_pos_size.
  pose proof (Pos.size_le p) as Hle.
  apply Pos2Z.pos_le_pos in Hle. rewrite Pos2Z.inj_pow in Hle.
  assert (Hlt : 2 ^ Zpos (Pos.size p) < 2 ^ (k + 1)).
  { rewrite Z.pow_add_r, Z.pow_1_r by lia. lia. }
  apply Z.pow_lt_mono_r_iff in Hlt; lia.
Qed.

Lemma Zdigits2_succ m : 0 <= m -> Zdigits2 (m + 1) <= Zdigits2 m + 1.
Proof.
  intros Hm. destruct m as [|p|p]; [simpl; lia| |lia].
  change (Zpos p + 1) with (Zpos (p + 1)). unfold Zdigits2.
  apply digits_upper; [lia|].
  pose proof (digits_lower p) as Hp.
  rewrite Z.pow_add_r, Z.pow_1_r by lia. lia.
Qed.

Lemma digits_mul p q :
  Zpos (digits2_pos (p * q)) <= Zpos (digits2_pos p) + Zpos (digits2_pos q).
Proof.
  apply digits_upper; [lia|].
  pose proof (digits_lower p) as Hp. pose proof (digits_lower q) as Hq.
  rewrite Z.pow_add_r by lia. rewrite Pos2Z.inj_mul. nia.
Qed.

Lemma shr_1_ok k mrs : shr_ok k mrs -> shr_ok (k - 1) (shr_1 mrs).
Proof.
  destruct mrs as [m rb sb]. unfold shr_ok.
  destruct m as [|[p|p|]|p]; simpl; rewrite ?Pos2Z.inj_succ; lia.
Qed.

Lemma iter_shr_ok n :
  forall k mrs, shr_ok k mrs -> shr_ok (k - Zpos n) (iter_pos shr_1 n mrs).
Proof.
  induction n as [n IH|n IH|]; intros k mrs Hok; simpl.
  - replace (k - Zpos n~1) with (k - 1 - Zpos n - Zpos n) by lia.
    apply IH, IH, shr_1_ok, Hok.
  - replace (k - Zpos n~0) with (k - Zpos n - Zpos n) by lia.
    apply IH, IH, Hok.
  - apply shr_1_ok, Hok.
Qed.

Lemma shr_record_of_loc_m m l : shr_m (shr_record_of_loc m l) = m.
Proof. destruct l as [|[]]; reflexivity. Qed.

Lemma shr_fexp_ok m e l :
  0 <= m ->
  0 <= shr_m (fst (shr_fexp prec emax m e l))
  /\ snd (shr_fexp prec emax m e l) = Z.max e (fexp prec emax (Zdigits2 m + e))
  /\ Zdigits2 (shr_m (fst (shr_fexp prec emax m e l)))
       + snd (shr_fexp prec emax m e l)
     <= Z.max (snd (shr_fexp prec emax m e l)) (Zdigits2 m + e).
Proof.
  intros Hm. unfold shr_fexp, shr.
  destruct (fexp prec emax (Zdigits2 m + e) - e) as [|n|n] eqn:Hn; cbn [fst snd];
    rewrite ?shr_record_of_loc_m.
  - lia.
  - assert (Hok : shr_ok (Zdigits2 m) (shr_record_of_loc m l)).
    { unfold shr_ok. rewrite shr_record_of_loc_m. lia. }
    apply (iter_shr_ok n) in Hok as [H0 Hd]. lia.
  - lia.
Qed.

Lemma round_nearest_even_ok m l :
  0 <= m ->
  0 <= round_nearest_even m l
  /\ Zdigits2 (round_nearest_even m l) <= Zdigits2 m + 1.
Proof.
  intros Hm. pose proof (Zdigits2_succ m Hm) as Hs.
  unfold round_nearest_even.
  destruct l as [|[]]; try destruct (Z.even m); lia.
Qed.

(** Rounding does not overflow when the exponent and the magnitude are
    within the format. *)
Lemma binary_round_aux_finite s m e l :
  0 <= m -> e <= 971 -> Zdigits2 m + e <= 1023 ->
  SFfinite (binary_round_aux prec emax s m e l) = true.
Proof.
  intros Hm He Hd. unfold binary_round_aux.
  pose proof (shr_fexp_ok m e l Hm) as (H1 & E1 & D1).
  destruct (shr_fexp prec emax m e l) as [mrs' e']. cbn [fst snd] in *.
  pose proof (round_nearest_even_ok (shr_m mrs') (loc_of_shr_record mrs') H1)
    as (H2 & D2).
  set (m2 := round_nearest_even (shr_m mrs') (loc_of_shr_record mrs')) in *.
  pose proof (shr_fexp_ok m2 e' loc_Exact H2) as (H3 & E3 & _).
  destruct (shr_fexp prec emax m2 e' loc_Exact) as [mrs'' e'']. cbn [fst snd] in *.
  destruct (shr_m mrs'') as [|p|p]; [reflexivity| |lia].
  assert (Hle : e'' <= emax - prec).
  { unfold fexp, emin, prec, emax in *. lia. }
  apply Z.leb_le in Hle. rewrite Hle. reflexivity.
Qed.

Lemma valid_digits s m e :
  valid_binary (S754_finite s m e) = true ->
  Zpos (digits2_pos m) <= 53 /\ e <= 971.
Proof.
  unfold SpecFloat.valid_binary, bounded, canonical_mantissa, fexp, emin, prec, emax.
  intros H. apply andb_prop in H as [H1 H2].
  apply Z.eqb_eq in H1. apply Z.leb_le in H2. lia.
Qed.

Lemma SFmul_finite X Y b1 b2 :
  valid_binary X = true -> valid_binary Y = true ->
  SFfinite X = true -> SFfinite Y = true ->
  exp_le X b1 -> exp_le Y b2 -> b1 + b2 <= 917 ->
  SFfinite (SF64mul X Y) = true.
Proof.
  intros VX VY FX FY EX EY Hb.
  destruct X as [sx|sx| |sx mx ex], Y as [sy|sy| |sy my ey];
    try discriminate; try reflexivity.
  unfold SF64mul, SFmul. cbn [exp_le] in EX, EY.
  apply valid_digits in VX as [DX _], VY as [DY _].
  pose proof (digits_mul mx my) as Dm.
  apply binary_round_aux_finite; [lia | | ].
  - pose proof (valid_digits sx mx ex). lia.
  - cbn [Zdigits2]. lia.
Qed.

Lemma SFcompare_refl_finite X :
  SFfinite X = true -> SFcompare X X = Some Eq.
Proof.
  destruct X as [s|s| |s m e]; try discriminate; intros _; simpl;
    [reflexivity|].
  rewrite Z.compare_refl, Pos.compare_cont_refl. destruct s; reflexivity.
Qed.

(** [is_finite], read on the specification of the format. *)
Lemma is_finite_spec x : is_finite x = SFfinite (Prim2SF x).
Proof.
  unfold is_finite, is_nan, is_infinity.
  rewrite !eqb_spec, abs_spec.
  replace (Prim2SF infinity) with (S754_infinity false) by reflexivity.
  destruct (Prim2SF x) as [s|s| |s m e] eqn:E; try reflexivity.
  - destruct s; reflexivity.
  - unfold SFeqb. rewrite SFcompare_refl_finite by reflexivity. reflexivity.
Qed.

Lemma Prim2SF_zero x : Prim2SF x = S754_zero false -> x = 0%float.
Proof. intros H. apply Prim2SF_inj. rewrite H. reflexivity. Qed.

(** [x - x] is [+0] for a finite [x]. *)
Lemma sub_self x : is_finite x = true -> (x - x)%float = 0%float.
Proof.
  rewrite is_finite_spec. intros Hx. apply Prim2SF_zero.
  rewrite sub_spec. unfold SF64sub.
  destruct (Prim2SF x) as [s|s| |s m e]; try discriminate.
  - destruct s; reflexivity.
  - unfold SFsub. rewrite Z.sub_diag. reflexivity.
Qed.

Lemma Prim2SF_exp_le x : exp_le (Prim2SF x) 971.
Proof.
  pose proof (Prim2SF_valid x) as V.
  destruct (Prim2SF x) as [s|s| |s m e]; try exact I.
  apply valid_digits in V. simpl. lia.
Qed.

(** [math.radians] of a finite number is finite. *)
Lemma radians_finite x : is_finite x = true -> is_finite (radians x) = true.
Proof.
  rewrite !is_finite_spec. intros Hx. unfold radians. rewrite mul_spec.
  apply (SFmul_finite _ _ 971 (-58)).
  - apply Prim2SF_valid.
  - apply Prim2SF_valid.
  - exact Hx.
  - reflexivity.
  - apply Prim2SF_exp_le.
  - vm_compute. discriminate.
  - lia.
Qed.

(** A float of magnitude at most 1 is finite, with a small exponent. *)
Lemma within_one c :
  (abs c <=? 1)%float = true ->
  SFfinite (Prim2SF c) = true /\ exp_le (Prim2SF c) (-52).
Proof.
  rewrite leb_spec, abs_spec.
  replace (Prim2SF 1) with (S754_finite false 4503599627370496 (-52))
    by reflexivity.
  destruct (Prim2SF c) as [s|s| |s m e]; try discriminate.
  - intros _. split; [reflexivity | exact I].
  - unfold SFleb, SFabs, SFcompare. intros H. split; [reflexivity|].
    simpl. destruct (Z.compare_spec e (-52)); [lia | lia | discriminate].
Qed.

(** The second term of the haversine sum vanishes when the longitudes
    agree: [0 + c1 * c2 * 0] is [+0] for factors of magnitude at most 1. *)
Lemma cos_term_zero c1 c2 :
  (abs c1 <=? 1)%float = true ->
  (abs c2 <=? 1)%float = true ->
  (0 + c1 * c2 * 0)%float = 0%float.
Proof.
  intros H1 H2.
  apply within_one in H1 as [F1 E1], H2 as [F2 E2].
  apply Prim2SF_zero. rewrite add_spec, mul_spec, mul_spec.
  pose proof (SFmul_finite _ _ (-52) (-52)
                (Prim2SF_valid c1) (Prim2SF_valid c2) F1 F2 E1 E2
                ltac:(lia)) as F.
  replace (Prim2SF 0) with (S754_zero false) by reflexivity.
  destruct (SF64mul (Prim2SF c1) (Prim2SF c2)) as [s|s| |s m e];
    try discriminate.
  - destruct s; reflexivity.
  - destruct s; reflexivity.
Qed.

(** ** The distance of a point to itself *)

Lemma haversine_self {rt : PyRuntime} (lat lng : float) :
  libm_laws rt -> is_finite lat = true -> is_finite lng = true ->
  haversine lat lng (JFloat lat) (JFloat lng) = Ok 0.
Proof.
  intros Hrt Hlat Hlng. unfold haversine. cbn [py_sub math_radians bind].
  rewrite !sub_self by assumption.
  replace (radians 0 / 2)%float with 0%float by reflexivity.
  rewrite (sin_zero rt Hrt). cbn [bind]. rewrite (pow_zero rt Hrt). cbn [bind].
  destruct (cos_range rt Hrt (radians lat) (radians_finite lat Hlat))
    as (c & -> & Hc).
  cbn [bind]. rewrite (cos_term_zero c c Hc Hc).
  replace (math_sqrt 0) with (Ok 0%float) by reflexivity. cbn [bind].
  replace (math_sqrt (1 - 0)) with (Ok 1%float) by reflexivity. cbn [bind].
  rewrite (atan2_zero rt Hrt). reflexivity.
Qed.

Lemma reference_laws : libm_laws reference_runtime.
Proof.
  split; try reflexivity.
  intros x Hx. simpl. unfold Reference.ref_cos.
  unfold is_finite in Hx. apply negb_true_iff, orb_false_iff in Hx as [-> ->].
  destruct (abs (Reference.cos_series x) <=? 1)%float eqn:E.
  - eexists. split; [reflexivity | exact E].
  - destruct (Reference.cos_series x <? 0)%float;
      eexists; (split; [reflexivity|]); reflexivity.
Qed.

Ltac ok_bind H x E :=
  match type of H with
  | bind ?c _ = Ok _ =>
      destruct c as [x|] eqn:E; cbn [bind] in H; [ | discriminate H]
  end.

Lemma math_sqrt_ok x q : math_sqrt x = Ok q -> q = sqrt x.
Proof.
  unfold math_sqrt. destruct (is_nan (sqrt x) && negb (is_nan x));
    [discriminate | congruence].
Qed.

(** ** A query point that is no number *)

Lemma Prim2SF_nan x : Prim2SF x = S754_nan -> x = nan.
Proof. intros H. apply Prim2SF_inj. rewrite H. reflexivity. Qed.

Lemma sub_self_nan x : is_finite x = false -> (x - x)%float = nan.
Proof.
  rewrite is_finite_spec. intros Hx. apply Prim2SF_nan.
  rewrite sub_spec. unfold SF64sub.
  destruct (Prim2SF x) as [s|s| |s m e]; try discriminate.
  - destruct s; reflexivity.
  - reflexivity.
Qed.

Lemma add_nan_l x : (nan + x)%float = nan.
Proof.
  apply Prim2SF_nan. rewrite add_spec.
  replace (Prim2SF nan) with S754_nan by reflexivity. reflexivity.
Qed.

Lemma add_nan_r x : (x + nan)%float = nan.
Proof.
  apply Prim2SF_nan. rewrite add_spec.
  replace (Prim2SF nan) with S754_nan by reflexivity.
  unfold SF64add. destruct (Prim2SF x) as [s|s| |s m e]; reflexivity.
Qed.

Lemma mul_nan_r x : (x * nan)%float = nan.
Proof.
  apply Prim2SF_nan. rewrite mul_spec.
  replace (Prim2SF nan) with S754_nan by reflexivity.
  unfold SF64mul. destruct (Prim2SF x) as [s|s| |s m e]; reflexivity.
Qed.

Section NonFinite.
Context {rt : PyRuntime}.

(** From a NaN [a] on, [haversine] ends in [int(nan)]. *)
Lemma haversine_tail_nan :
  libm_nan_laws rt ->
  exists e,
    (q1 <- math_sqrt nan ;;
     q2 <- math_sqrt (1 - nan)%float ;;
     t <- math_atan2 q1 q2 ;;
     R2 <- float_of_int (R * 2) ;;
     int_of_float (R2 * t)%float) = Raise e.
Proof.
  intros Hn.
  replace (math_sqrt nan) with (Ok nan) by reflexivity. cbn [bind].
  replace (math_sqrt (1 - nan)) with (Ok nan) by reflexivity. cbn [bind].
  rewrite (atan2_nan rt Hn). cbn [bind].
  eexists. vm_compute. reflexivity.
Qed.

Lemma haversine_not_finite (lat lng : float) :
  libm_laws rt -> libm_nan_laws rt ->
  is_finite lat = false \/ is_finite lng = false ->
  exists e, haversine lat lng (JFloat lat) (JFloat lng) = Raise e.
Proof.
  intros Hrt Hn Hnf. unfold haversine. cbn [py_sub math_radians bind].
  destruct (is_finite lat) eqn:Hlat.
  - destruct Hnf as [Hnf|Hlng]; [discriminate|].
    rewrite (sub_self lat Hlat), (sub_self_nan lng Hlng).
    replace (radians 0 / 2)%float with 0%float by reflexivity.
    replace (radians nan / 2)%float with nan by reflexivity.
    rewrite (sin_zero rt Hrt). cbn [bind]. rewrite (pow_zero rt Hrt). cbn [bind].
    destruct (cos_range rt Hrt (radians lat) (radians_finite lat Hlat))
      as (c & -> & _).
    cbn [bind]. rewrite (sin_nan rt Hn). cbn [bind].
    rewrite (pow_nan rt Hn). cbn [bind].
    rewrite mul_nan_r, add_nan_r. apply haversine_tail_nan, Hn.
  - rewrite (sub_self_nan lat Hlat).
    replace (radians nan / 2)%float with nan by reflexivity.
    rewrite (sin_nan rt Hn). cbn [bind]. rewrite (pow_nan rt Hn). cbn [bind].
    destruct (math_cos (radians lat)) as [c|e]; [|eexists; reflexivity].
    cbn [bind].
    destruct (math_sin _) as [s2|e]; [|eexists; reflexivity]. cbn [bind].
    destruct (float_pow s2 2) as [p2|e]; [|eexists; reflexivity]. cbn [bind].
    rewrite add_nan_l. apply haversine_tail_nan, Hn.
Qed.

End NonFinite.

Lemma reference_nan_laws : libm_nan_laws reference_runtime.
Proof. split; reflexivity. Qed.

(** C5 (amended). [haversine] is the haversine formula with the Earth
    radius 6,371,000 m, truncated to an integer number of metres; for
    every finite [lat] and [lng] the distance of the query point to
    itself is 0; for a [lat] or [lng] that is NaN or an infinity the
    function raises. *)
Theorem haversine_of_query_point {rt : PyRuntime} (lat lng : float) :
  libm_laws rt ->
  R = 6371000
  /\ (is_finite lat = true -> is_finite lng = true ->
      haversine lat lng (JFloat lat) (JFloat lng) = Ok 0)
  /\ (libm_nan_laws rt ->
      is_finite lat = false \/ is_finite lng = false ->
      exists e, haversine lat lng (JFloat lat) (JFloat lng) = Raise e)
  /\ (forall elat elng d,
        haversine lat lng (JFloat elat) (JFloat elng) = Ok d ->
        exists s1 p1 c1 c2 s2 p2 t,
          math_sin (radians (elat - lat) / 2)%float = Ok s1
          /\ float_pow s1 2 = Ok p1
          /\ math_cos (radians lat) = Ok c1
          /\ math_cos (radians elat) = Ok c2
          /\ math_sin (radians (elng - lng) / 2)%float = Ok s2
          /\ float_pow s2 2 = Ok p2
          /\ math_atan2 (sqrt (p1 + c1 * c2 * p2))
                        (sqrt (1 - (p1 + c1 * c2 * p2))) = Ok t
          /\ int_of_float (12742000 * t)%float = Ok d).
Proof.
  intros Hrt. split; [reflexivity|].
  split; [apply haversine_self; assumption|].
  split; [apply haversine_not_finite; assumption|].
  intros elat elng d H. unfold haversine in H.
  cbn [py_sub math_radians bind] in H.
  ok_bind H s1 S1. ok_bind H p1 P1. ok_bind H c1 C1. ok_bind H c2 C2.
  ok_bind H s2 S2. ok_bind H p2 P2. ok_bind H q1 Q1. ok_bind H q2 Q2.
  apply math_sqrt_ok in Q1, Q2. subst q1 q2.
  ok_bind H t T.
  exists s1, p1, c1, c2, s2, p2, t. repeat split; assumption.
Qed.

Lemma haversine_of_query_point_witness :
  haversine (rt := reference_runtime) bangalore_lat bangalore_lng
    (JFloat bangalore_lat) (JFloat bangalore_lng) = Ok 0
  /\ exists e, haversine (rt := reference_runtime) nan 0%float
                 (JFloat nan) (JFloat 0) = Raise e.
Proof.
  split.
  - exact (proj1 (proj2 (haversine_of_query_point (rt := reference_runtime)
                           bangalore_lat bangalore_lng reference_laws))
             eq_refl eq_refl).
  - exact (proj1 (proj2 (proj2 (haversine_of_query_point
                                  (rt := reference_runtime) nan 0%float
                                  reference_laws)))
             reference_nan_laws (or_introl eq_refl)).
Defined.

(** C5, as stated for every [lat] and [lng], fails: a float can be NaN
    (the handler accepts [lat=nan]), and then [haversine] raises instead
    of returning 0. *)
Lemma haversine_of_nan_raises :
  haversine (rt := reference_runtime) nan 0%float (JFloat nan) (JFloat 0)
  = Raise (mk_exn ValueError "cannot convert float NaN to integer").
Proof. vm_compute. reflexivity. Qed.

Example haversine_of_infinity_raises :
  haversine (rt := reference_runtime) infinity 0%float
    (JFloat infinity) (JFloat 0)
  = Raise (mk_exn ValueError "math domain error").
Proof. vm_compute. reflexivity. Qed.

(** The example of the specification: a hospital node at (12.9720,
    77.5950), queried from (12.9716, 77.5946) with the filter "hospital". *)
Example hospital_example :
  nearby (rt := reference_runtime) bangalore_lat bangalore_lng
    (fun _ => Body (JDict [("elements",
       JList [JDict [("type", JStr "node"); ("lat", JFloat 12.9720);
                     ("lon", JFloat 77.5950);
                     ("tags", JDict [("amenity", JStr "hospital");
                                     ("name", JNull)])]])]))
    (Some "hospital")
  = {| places := [ {| name := "Hospital (Has Washrooms)";
                      address := JStr "";
                      p_lat := JFloat 12.9720;
                      p_lng := JFloat 77.5950;
                      distance_m := 62;
                      types := [JStr "hospital"];
                      wheelchair := JStr "" |} ];
       error := None |}.
Proof. vm_compute. reflexivity. Qed.

(** ** Centres without coordinates *)

(** ** No distance is negative *)

Lemma ltb_zero x : (x <? 0)%float = SFnegative (Prim2SF x).
Proof.
  rewrite ltb_spec.
  replace (Prim2SF 0) with (S754_zero false) by reflexivity.
  destruct (Prim2SF x) as [s|s| |s m e]; try reflexivity; destruct s; reflexivity.
Qed.

Lemma Prim2SF_negzero x : Prim2SF x = S754_zero true -> x = (-0)%float.
Proof. intros H. apply Prim2SF_inj. rewrite H. reflexivity. Qed.

Lemma get_sign_spec x : get_sign x = SFsign (Prim2SF x).
Proof.
  unfold get_sign, is_zero. rewrite eqb_spec.
  replace (Prim2SF zero) with (S754_zero false) by reflexivity.
  destruct (Prim2SF x) as [s|s| |s m e] eqn:E.
  - destruct s.
    + rewrite (Prim2SF_negzero x E). reflexivity.
    + rewrite (Prim2SF_zero x E). reflexivity.
  - replace (SFeqb (S754_infinity s) (S754_zero false)) with false
      by (destruct s; reflexivity).
    rewrite ltb_zero, E. reflexivity.
  - cbn. rewrite ltb_zero, E. reflexivity.
  - replace (SFeqb (S754_finite s m e) (S754_zero false)) with false
      by (destruct s; reflexivity).
    rewrite ltb_zero, E. reflexivity.
Qed.

Lemma abs_not_negative x : (abs x <? 0)%float = false.
Proof.
  rewrite ltb_zero, abs_spec. destruct (Prim2SF x); reflexivity.
Qed.

Lemma binary_round_aux_sign mx ex lx :
  SFsign (binary_round_aux prec emax false mx ex lx) = false.
Proof.
  unfold binary_round_aux.
  destruct (shr_fexp prec emax mx ex lx) as [mrs e1].
  destruct (shr_fexp prec emax _ e1 loc_Exact) as [mrs2 e2].
  destruct (shr_m mrs2); [reflexivity| |reflexivity].
  destruct (e2 <=? emax - prec); reflexivity.
Qed.

Lemma SFsign_negative X : SFsign X = false -> SFnegative X = false.
Proof. destruct X; simpl; congruence. Qed.

(** A square root has the sign bit of its argument only when that is a
    negative zero. *)
Lemma sqrt_sign x : Prim2SF x <> S754_zero true -> SFsign (Prim2SF (sqrt x)) = false.
Proof.
  rewrite sqrt_spec. unfold SF64sqrt, SFsqrt.
  destruct (Prim2SF x) as [s|s| |s m e]; intros Hx.
  - destruct s; [contradiction Hx|]; reflexivity.
  - destruct s; reflexivity.
  - reflexivity.
  - destruct s; [reflexivity|].
    destruct (SFsqrt_core_binary prec emax (Z.pos m) e) as [[mz ez] lz].
    apply binary_round_aux_sign.
Qed.

Lemma sqrt_not_negative x : (sqrt x <? 0)%float = false.
Proof.
  rewrite ltb_zero.
  destruct (Prim2SF x) as [[|]| | |] eqn:E;
    try (apply SFsign_negative, sqrt_sign; rewrite E; discriminate).
  rewrite (Prim2SF_negzero x E). reflexivity.
Qed.

(** A product with a positive number is below zero only if the other
    factor is. *)
Lemma mul_not_negative r t m e :
  Prim2SF r = S754_finite false m e ->
  (t <? 0)%float = false -> (r * t <? 0)%float = false.
Proof.
  intros Hr. rewrite !ltb_zero, mul_spec, Hr. unfold SF64mul, SFmul.
  destruct (Prim2SF t) as [s|s| |s mt et]; cbn [SFnegative]; intros Ht;
    try subst s; try reflexivity.
  apply SFsign_negative, binary_round_aux_sign.
Qed.

Lemma int_of_float_not_negative x d :
  int_of_float x = Ok d -> (x <? 0)%float = false -> 0 <= d.
Proof.
  unfold int_of_float. rewrite ltb_zero.
  destruct (Prim2SF x) as [s|s| |s m e]; try discriminate.
  - intros [= <-] _. lia.
  - cbn [SFnegative]. intros [= <-] ->.
    destruct (0 <=? e) eqn:He.
    + apply Z.shiftl_nonneg. lia.
    + apply Z.shiftr_nonneg. lia.
Qed.

Section NotNegative.
Context {rt : PyRuntime}.
Variables lat lng : float.

(** No distance is negative. *)
Lemma haversine_not_negative elat elng d :
  atan2_sign rt -> haversine lat lng elat elng = Ok d -> 0 <= d.
Proof.
  intros Hsign H. unfold haversine in H.
  ok_bind H d1 D1. ok_bind H d2 D2. ok_bind H s1 S1. ok_bind H p1 P1.
  ok_bind H c1 C1. ok_bind H relat RE. ok_bind H c2 C2. ok_bind H s2 S2.
  ok_bind H p2 P2. ok_bind H q1 Q1. ok_bind H q2 Q2. ok_bind H t T.
  ok_bind H R2 HR.
  assert (HR2 : R2 = 12742000%float) by (vm_compute in HR; congruence).
  subst R2. apply (int_of_float_not_negative _ _ H).
  apply (mul_not_negative _ _ 6840809160704000%positive (-29)); [reflexivity|].
  apply math_sqrt_ok in Q1, Q2. subst q1 q2.
  apply (Hsign _ _ _ T); [apply sqrt_not_negative|].
  generalize (p1 + c1 * c2 * p2)%float. intros a.
  destruct (Prim2SF a) as [[|]| | |] eqn:E;
    try (left; apply sqrt_sign; rewrite E; discriminate).
  right. rewrite (Prim2SF_negzero a E). reflexivity.
Qed.

Lemma measured_not_negative ps :
  atan2_sign rt -> measured lat lng ps -> Forall (fun p => 0 <= distance_m p) ps.
Proof.
  intros Hsign Hm. unfold measured in Hm. eapply Forall_impl; [|exact Hm].
  intros p Hp. exact (haversine_not_negative _ _ _ Hsign Hp).
Qed.

End NotNegative.

Lemma reference_atan2_sign : atan2_sign reference_runtime.
Proof.
  intros y x t H Hy Hs. cbn [math_atan2 reference_runtime] in H.
  unfold Reference.ref_atan2 in H.
  assert (Hcs : forall m, get_sign y = false ->
                  (Reference.copysign m y <? 0)%float = false).
  { intros m Hg. unfold Reference.copysign. rewrite Hg. apply abs_not_negative. }
  destruct (is_nan x || is_nan y); [injection H as <-; reflexivity|].
  destruct (get_sign y) eqn:Hg.
  - (* [y] is the negative zero *)
    rewrite get_sign_spec in Hg. rewrite ltb_zero in Hy.
    destruct (Prim2SF y) as [s|s| |s m e] eqn:E; cbn in Hg, Hy; try congruence.
    subst s. rewrite (Prim2SF_negzero y E) in *.
    destruct Hs as [Hs|Hs]; [discriminate|].
    rewrite <- get_sign_spec in Hs. rewrite Hs in H.
    change (is_infinity (-0)) with false in H.
    change (is_zero (-0)) with true in H. rewrite orb_true_r in H.
    injection H as <-. reflexivity.
  - repeat match type of H with
    | (if ?b then _ else _) = Ok _ => destruct b
    end; injection H as <-; apply Hcs; reflexivity.
Qed.

(** ** Where the places at 0 m rank *)

Lemma insert_place_zeros q zs l :
  Forall (fun z => distance_m z = 0) zs -> 0 < distance_m q ->
  insert_place q (zs ++ l) = (zs ++ insert_place q l)%list.
Proof.
  intros Hzs Hq. induction Hzs as [|z zs Hz _ IH]; [reflexivity|].
  cbn [app insert_place]. rewrite Hz.
  destruct (Z.leb_spec (distance_m q) 0); [lia|]. rewrite IH. reflexivity.
Qed.

Lemma at_distance_all d l : Forall (fun z => distance_m z = d) (at_distance d l).
Proof.
  apply Forall_forall. intros z Hz. apply filter_In in Hz as [_ Hz].
  apply Z.eqb_eq, Hz.
Qed.

(** The ranking of places none of which is nearer than 0 m: those at
    0 m in the order they were built, then the others by distance. *)
Lemma sort_places_zeros l :
  Forall (fun q => 0 <= distance_m q) l ->
  sort_places l = (at_distance 0 l ++ sort_places (farther_than 0 l))%list.
Proof.
  induction 1 as [|q l Hq Hl IH]; [reflexivity|].
  change (sort_places (q :: l)) with (insert_place q (sort_places l)).
  rewrite IH. unfold at_distance, farther_than. cbn [filter].
  destruct (Z.eqb_spec (distance_m q) 0) as [Hz|Hz].
  - destruct (Z.ltb_spec 0 (distance_m q)); [lia|].
    cbn [app]. apply insert_place_head.
    apply Forall_app. split.
    + eapply Forall_impl; [|apply (at_distance_all 0 l)].
      intros z Hz'. cbn beta in Hz'. lia.
    + apply (Permutation_Forall
               (Permutation_sym (sort_places_perm (farther_than 0 l)))).
      apply Forall_forall. intros z Hin. apply filter_In in Hin as [_ Hin].
      apply Z.ltb_lt in Hin. lia.
  - destruct (Z.ltb_spec 0 (distance_m q)); [|lia].
    apply (insert_place_zeros q (at_distance 0 l)); [apply at_distance_all | lia].
Qed.

(** C8 (amended). For an element that is not a node and whose centre is
    a non-empty object, a coordinate missing from the centre is the query
    point's. When both are missing the element is placed at the query
    point: for a finite query point its distance is 0. When an earlier
    element has the key of the query point, the element is dropped as a
    duplicate: the loop and the response are those without it. When none
    has, its place is in the list the loop builds, with [distance_m] 0,
    and it ranks after the places at 0 m built before it and before all
    others: it ranks first when every place built before it is farther
    than 0 m. *)
Theorem center_defaults_to_query_point {rt : PyRuntime} (lat lng : float)
    (d : list (string * json)) (ty : json) (c : list (string * json)) :
  dict_get d "type" = Some ty ->
  eq_str ty "node" = false ->
  dict_get d "center" = Some (JDict c) ->
  c <> [] ->
  locate lat lng (JDict d)
  = Ok (Some (coord_or (dict_get c "lat") lat, coord_or (dict_get c "lon") lng))
  /\ (dict_get c "lat" = None -> dict_get c "lon" = None ->
      libm_laws rt -> atan2_sign rt ->
      is_finite lat = true -> is_finite lng = true ->
      locate lat lng (JDict d) = Ok (Some (JFloat lat, JFloat lng))
      /\ haversine lat lng (JFloat lat) (JFloat lng) = Ok 0
      /\ forall pre suf ps1 seen1,
           loop lat lng pre ([], []) = Ok (ps1, seen1) ->
           (key_in (query_key lat lng) seen1 = true ->
            loop lat lng (pre ++ JDict d :: suf) ([], [])
            = loop lat lng (pre ++ suf) ([], [])
            /\ try_block lat lng
                 (Body (JDict [("elements", JList (pre ++ JDict d :: suf))]))
               = try_block lat lng
                   (Body (JDict [("elements", JList (pre ++ suf))])))
           /\ (key_in (query_key lat lng) seen1 = false ->
               forall ps seen,
                 loop lat lng (pre ++ JDict d :: suf) ([], []) = Ok (ps, seen) ->
                 exists p ps2,
                   ps = (ps1 ++ p :: ps2)%list
                   /\ p_lat p = JFloat lat /\ p_lng p = JFloat lng
                   /\ distance_m p = 0
                   /\ try_block lat lng
                        (Body (JDict [("elements",
                                       JList (pre ++ JDict d :: suf))]))
                      = Ok (firstn 15
                              (at_distance 0 ps1
                               ++ p :: at_distance 0 ps2
                               ++ sort_places (farther_than 0 (ps1 ++ ps2))))%list
                   /\ (Forall (fun q => 0 < distance_m q) ps1 ->
                       try_block lat lng
                         (Body (JDict [("elements",
                                        JList (pre ++ JDict d :: suf))]))
                       = Ok (p :: firstn 14 (sort_places (ps1 ++ ps2)))))).
Proof.
  intros Hty Hnode Hcenter Hc.
  assert (Hloc : locate lat lng (JDict d)
                 = Ok (Some (coord_or (dict_get c "lat") lat,
                             coord_or (dict_get c "lon") lng))).
  { unfold locate, py_getitem, py_get. rewrite Hty. cbn [bind].
    rewrite Hnode, Hcenter. cbn [bind truthy].
    destruct c as [|kv c']; [contradiction Hc; reflexivity|]. cbn [negb].
    destruct (dict_get (kv :: c') "lat"), (dict_get (kv :: c') "lon");
      reflexivity. }
  split; [exact Hloc|].
  intros Hlat Hlon Hrt Hsign Flat Flng.
  rewrite Hlat, Hlon in Hloc. cbn [coord_or] in Hloc.
  pose proof (haversine_self lat lng Hrt Flat Flng) as Hzero.
  split; [exact Hloc|]. split; [exact Hzero|].
  intros pre suf ps1 seen1 Hpre. split.
  - intros Hin.
    assert (Hl : loop lat lng (pre ++ JDict d :: suf) ([], [])
                 = loop lat lng (pre ++ suf) ([], [])).
    { rewrite !loop_app, Hpre. cbn [bind loop].
      rewrite (step_duplicate lat lng (JDict d) (JFloat lat) (JFloat lng)
                 (query_key lat lng) ps1 seen1 Hloc eq_refl Hin).
      reflexivity. }
    split; [exact Hl|].
    cbn [try_block py_get dict_get String.eqb Ascii.eqb Bool.eqb bind py_iter].
    rewrite Hl. reflexivity.
  - intros Hin ps seen Hloop.
    destruct (loop_first_seen lat lng pre (JDict d) suf (JFloat lat) (JFloat lng)
                (query_key lat lng) ps1 seen1 ps seen Hpre Hloc eq_refl Hin Hloop)
      as (tags & dist & p & ps2 & _ & Hd & Hp & Hps & _).
    rewrite Hzero in Hd. injection Hd as <-.
    apply make_place_coords in Hp as (Ha & Hb & Hdist & _).
    exists p, ps2. do 4 (split; [assumption|]).
    pose proof (loop_measured lat lng _ ([], []) (ps, seen) (Forall_nil _) Hloop)
      as Hm.
    apply (measured_not_negative lat lng _ Hsign) in Hm. cbn [fst] in Hm.
    assert (Htry : try_block lat lng
                     (Body (JDict [("elements", JList (pre ++ JDict d :: suf))]))
                   = Ok (firstn 15 (sort_places ps))).
    { cbn [try_block py_get dict_get String.eqb Ascii.eqb Bool.eqb bind py_iter].
      rewrite Hloop. reflexivity. }
    rewrite Htry. split.
    + rewrite (sort_places_zeros ps Hm), Hps.
      unfold at_distance, farther_than. rewrite !filter_app. cbn [filter].
      rewrite Hdist. cbn [Z.eqb Z.ltb Z.compare]. rewrite <- app_assoc.
      reflexivity.
    + intros H1. rewrite Hps in *. apply Forall_app in Hm as [_ Hm].
      inversion Hm as [|? ? _ H2]; subst.
      rewrite sort_places_head.
      * reflexivity.
      * rewrite Hdist. exact H1.
      * rewrite Hdist. exact H2.
Qed.

Lemma center_defaults_to_query_point_witness :
  locate bangalore_lat bangalore_lng (JDict way_with_blank_center)
  = Ok (Some (JFloat bangalore_lat, JFloat bangalore_lng))
  /\ haversine (rt := reference_runtime) bangalore_lat bangalore_lng
       (JFloat bangalore_lat) (JFloat bangalore_lng) = Ok 0
  /\ try_block (rt := reference_runtime) bangalore_lat bangalore_lng
       (Body (JDict [("elements",
                      JList [far_node; JDict way_with_blank_center])]))
     = Ok [blank_way_place; far_place]
  /\ try_block (rt := reference_runtime) bangalore_lat bangalore_lng
       (Body (JDict [("elements",
                      JList [node_at_query_point; JDict way_with_blank_center])]))
     = try_block (rt := reference_runtime) bangalore_lat bangalore_lng
         (Body (JDict [("elements", JList [node_at_query_point])])).
Proof.
  pose proof (center_defaults_to_query_point (rt := reference_runtime)
                bangalore_lat bangalore_lng way_with_blank_center
                (JStr "way") [("x", JInt 1)] eq_refl eq_refl eq_refl
                ltac:(discriminate)) as [H1 H2].
  specialize (H2 eq_refl eq_refl reference_laws reference_atan2_sign
                eq_refl eq_refl) as (_ & H0 & H3).
  split; [exact H1|]. split; [exact H0|]. split.
  - assert (Hpre : loop (rt := reference_runtime) bangalore_lat bangalore_lng
                     [far_node] ([], [])
                   = Ok ([far_place], [(PFloat 13.0, PFloat 77.6)]))
      by (vm_compute; reflexivity).
    assert (Hloop : loop (rt := reference_runtime) bangalore_lat bangalore_lng
                      ([far_node] ++ [JDict way_with_blank_center]) ([], [])
                    = Ok ([far_place; blank_way_place],
                          [(PFloat 13.0, PFloat 77.6);
                           query_key bangalore_lat bangalore_lng]))
      by (vm_compute; reflexivity).
    destruct (proj2 (H3 [far_node] [] _ _ Hpre) eq_refl _ _ Hloop)
      as (p & ps2 & Hps & _ & _ & _ & _ & Hfirst).
    injection Hps as <- <-.
    exact (Hfirst ltac:(repeat constructor)).
  - assert (Hpre : loop (rt := reference_runtime) bangalore_lat bangalore_lng
                     [node_at_query_point] ([], [])
                   = Ok ([{| name := "Pharmacy";
                             address := JStr "";
                             p_lat := JFloat bangalore_lat;
                             p_lng := JFloat bangalore_lng;
                             distance_m := 0;
                             types := [JStr "pharmacy"];
                             wheelchair := JStr "" |}],
                         [query_key bangalore_lat bangalore_lng]))
      by (vm_compute; reflexivity).
    exact (proj2 (proj1 (H3 [node_at_query_point] [] _ _ Hpre) eq_refl)).
Defined.

(** C8, as stated, fails in its last part: the element placed at the
    query point does not always rank first, nor is it always placed.
    Queried from (12.971549, 77.5946), a pharmacy node 22 cm to the north
    has another key (12.9716 against 12.9715) and distance 0 as well; it
    comes first in the payload, the sort is stable, and the way ranks
    second. Queried from (12.9716, 77.5946), a pharmacy node 1.5 m away
    has the key of the query point; the way that follows it is a duplicate
    and gives no Place Result at all. *)
Lemma blank_center_not_first :
  map (fun p => (name p, p_lat p, distance_m p))
      (places (nearby (rt := reference_runtime) 12.971549 77.5946
                 (fun _ => Body (JDict [("elements",
                    JList [node_at 12.971551 77.5946 [("amenity", JStr "pharmacy")];
                           JDict way_with_blank_center])]))
                 None))
  = [("Pharmacy", JFloat 12.971551, 0);
     ("Hospital (Has Washrooms)", JFloat 12.971549, 0)]
  /\ map (fun p => (name p, p_lat p, distance_m p))
        (places (nearby (rt := reference_runtime) bangalore_lat bangalore_lng
                   (fun _ => Body (JDict [("elements",
                      JList [node_at 12.97161 77.59461 [("amenity", JStr "pharmacy")];
                             JDict way_with_blank_center])]))
                   None))
     = [("Pharmacy", JFloat 12.97161, 1)].
Proof. split; vm_compute; reflexivity. Qed.

(** ** The other fields of a Place Result *)

Lemma py_or_tag (t : tagmap) k rest :
  py_or (match assoc_get t k with Some v => tag_json v | None => JNull end) rest
  = if nonempty (tag_text t k) then JStr (tag_text t k) else rest.
Proof.
  unfold py_or, tag_text, nonempty.
  destruct (assoc_get t k) as [[v|]|]; cbn [tag_json truthy];
    try reflexivity.
Qed.

Lemma filter_truthy_tag (t : tagmap) k rest :
  filter truthy
    ((match assoc_get t k with Some v => tag_json v | None => JStr "" end) :: rest)
  = if nonempty (tag_text t k) then JStr (tag_text t k) :: filter truthy rest
    else filter truthy rest.
Proof.
  unfold tag_text, nonempty.
  destruct (assoc_get t k) as [[v|]|]; cbn [filter tag_json truthy];
    try reflexivity.
Qed.

(** On a tag mapping the dict appended to [places] is built without an
    exception: the display name, the first non-empty address tag, the
    coordinates and the distance as given, the non-empty category values
    in the fixed order, and the wheelchair tag. *)
Theorem make_place_of_tags {rt : PyRuntime} (t : tagmap)
    (elat elng : json) (dist : Z) :
  make_place (tags_json t) elat elng dist
  = Ok {| name := display_name t;
          address := JStr (address_of t);
          p_lat := elat;
          p_lng := elng;
          distance_m := dist;
          types := map JStr (types_of t);
          wheelchair := wheelchair_of t |}.
Proof.
  unfold make_place.
  rewrite friendly_name_on_tags. cbn [bind].
  rewrite !py_get_tags. cbn [bind]. f_equal. f_equal.
  - rewrite !py_or_tag. unfold address_of. cbn [map address_keys first_nonempty].
    repeat match goal with
    | |- context [nonempty ?s] => destruct (nonempty s)
    end; reflexivity.
  - rewrite !filter_truthy_tag. unfold types_of.
    cbn [map priority_keys filter].
    repeat match goal with
    | |- context [nonempty ?s] => destruct (nonempty s)
    end; reflexivity.
Qed.

(** ** The assembled query *)

(** The query asks for JSON with a service-side timeout of 20 seconds,
    wraps the clauses of the filter in a union, and asks for centres and
    at most 30 elements. *)
Theorem build_query_shape {rt : PyRuntime} (lat lng : float) (filter : string) :
  build_query lat lng filter
  = ("[out:json][timeout:20];" ++ newline ++ "(" ++ newline
       ++ block_text lat lng (clauses_for filter)
       ++ newline ++ ");" ++ newline ++ "out center 30;")%string.
Proof. unfold build_query. rewrite inner_clauses. reflexivity. Qed.

(** ** No two returned places share a key *)

Lemma apart_sym p q : apart p q -> apart q p.
Proof.
  intros H kq kp Hq Hp. apply key_eq_false_sym. apply H; assumption.
Qed.

Lemma pairs_perm (l l' : list place) :
  Permutation l l' -> ForallOrdPairs apart l -> ForallOrdPairs apart l'.
Proof.
  induction 1 as [|x l l' Hperm IH|x y l|l l' l'' _ IH1 _ IH2]; intros Hp.
  - constructor.
  - inversion Hp as [|? ? Hx Hl]; subst. constructor.
    + eapply Permutation_Forall; eassumption.
    + apply IH, Hl.
  - inversion Hp as [|? ? Hy Hxl]; subst.
    inversion Hxl as [|? ? Hx Hl]; subst.
    inversion Hy as [|? ? Hyx Hyl]; subst.
    constructor; [constructor; [apply apart_sym, Hyx | exact Hx]|].
    constructor; assumption.
  - apply IH2, IH1, Hp.
Qed.

Lemma pairs_firstn n (l : list place) :
  ForallOrdPairs apart l -> ForallOrdPairs apart (firstn n l).
Proof.
  intros Hp. revert n.
  induction Hp as [|x l Hx Hl IH]; intros [|n]; simpl; try constructor.
  - rewrite Forall_forall in *. intros y Hy. apply Hx. eapply firstn_incl, Hy.
  - apply IH.
Qed.

Lemma distinct_tail k seen : distinct (k :: seen) -> distinct seen.
Proof.
  intros Hd s1 x s2 E. apply (Hd (k :: s1) x s2). rewrite E. reflexivity.
Qed.

Lemma keys_of_pairs ps seen :
  keys_of ps seen -> distinct seen -> ForallOrdPairs apart ps.
Proof.
  induction 1 as [|p k ps seen Hp Hks IH]; intros Hd; constructor.
  - rewrite Forall_forall. intros q Hq kp kq Hkp Hkq.
    destruct (keys_of_in _ _ _ Hks Hq) as (k' & Hk' & Hq').
    unfold place_key in *. rewrite Hkp in Hp. injection Hp as ->.
    rewrite Hkq in Hq'. injection Hq' as ->.
    apply key_eq_false_sym. eapply (Hd [] k seen); [reflexivity | exact Hk'].
  - apply IH. eapply distinct_tail, Hd.
Qed.

(** In the list the handler returns, no two Place Results have equal
    rounded coordinates. *)
Theorem returned_places_apart {rt : PyRuntime} (lat lng : float)
    (post : string -> upstream) (filter : option string) :
  ForallOrdPairs apart (places (nearby lat lng post filter)).
Proof.
  unfold nearby. destruct (try_block lat lng _) as [ps|e] eqn:Htry;
    cbn [places]; [|constructor].
  unfold try_block in Htry.
  destruct (post _) as [e|e|e|payload]; try discriminate Htry.
  destruct (py_get payload "elements" (JList [])) as [elements|];
    [|discriminate Htry].
  cbn [bind] in Htry. destruct (py_iter elements) as [els|]; [|discriminate Htry].
  cbn [bind] in Htry.
  destruct (loop lat lng els ([], [])) as [[all seen]|] eqn:Hloop;
    [|discriminate Htry].
  cbn [bind fst] in Htry.
  assert (Hps : ps = firstn 15 (sort_places all)) by congruence. subst ps.
  pose proof (loop_inv lat lng _ _ _ inv_init Hloop) as [Hkeys Hdist].
  apply pairs_firstn.
  apply (pairs_perm all); [apply Permutation_sym, sort_places_perm|].
  eapply keys_of_pairs; eassumption.
Qed.

(** ** Ties of the ranking, and where the places come from *)

Lemma insert_place_at_distance d p l :
  at_distance d (insert_place p l) = at_distance d (p :: l).
Proof.
  induction l as [|q l IH]; [reflexivity|].
  cbn [insert_place]. destruct (distance_m p <=? distance_m q) eqn:Hle;
    [reflexivity|].
  unfold at_distance in *. cbn [filter] in *. rewrite IH.
  destruct (distance_m p =? d) eqn:Hp, (distance_m q =? d) eqn:Hq; try reflexivity.
  lia.
Qed.

(** The ranking is a stable sort by distance: it holds the places it was
    given, in non-decreasing order of [distance_m], and places at the
    same distance stay in the order the loop found them. *)
Theorem sort_places_stable (l : list place) :
  Permutation (sort_places l) l
  /\ StronglySorted nearer (sort_places l)
  /\ forall d, at_distance d (sort_places l) = at_distance d l.
Proof.
  split; [apply sort_places_perm|]. split; [apply sort_places_sorted|].
  intros d. induction l as [|p l IH]; [reflexivity|].
  change (sort_places (p :: l)) with (insert_place p (sort_places l)).
  rewrite insert_place_at_distance. unfold at_distance in *. cbn [filter].
  rewrite IH. reflexivity.
Qed.

Section Provenance.
Context {rt : PyRuntime}.
Variables lat lng : float.

Lemma loop_from_elements els ps0 seen0 ps seen :
  loop lat lng els (ps0, seen0) = Ok (ps, seen) ->
  exists ps2, ps = (ps0 ++ ps2)%list
    /\ (List.length ps2 <= List.length els)%nat
    /\ forall p, In p ps2 -> exists el, In el els /\ from_element lat lng el p.
Proof.
  revert ps0 seen0. induction els as [|el els IH]; intros ps0 seen0; cbn [loop].
  - intros [= <- <-]. exists []. rewrite app_nil_r. repeat split.
    + simpl. lia.
    + intros p [].
  - destruct (step lat lng (ps0, seen0) el) as [[ps1 seen1]|] eqn:Hstep;
      [|discriminate].
    cbn [bind]. intros Hloop.
    apply IH in Hloop as (ps2 & -> & Hlen & Hfrom).
    apply step_cases in Hstep
      as [[-> ->]|(tags & a & b & k & d & p & Ht & Hl & _ & _ & Hd & Hp & -> & ->)].
    + exists ps2. split; [reflexivity|]. split; [simpl; lia|].
      intros p Hp. destruct (Hfrom p Hp) as (x & Hx & Hfx).
      exists x. split; [right; exact Hx | exact Hfx].
    + exists (p :: ps2). rewrite <- app_assoc. split; [reflexivity|].
      split; [simpl; lia|].
      intros q [<-|Hq].
      * exists el. split; [left; reflexivity|].
        exists tags, a, b, d. repeat split; assumption.
      * destruct (Hfrom q Hq) as (x & Hx & Hfx).
        exists x. split; [right; exact Hx | exact Hfx].
Qed.

End Provenance.

(** When the service answers with a payload whose elements are [els],
    the handler returns at most as many places as there are elements,
    and each is built from one of them: from its tags, the coordinates
    read from it and the distance of those coordinates. Nothing is
    returned that the service did not send. *)
Theorem places_come_from_elements {rt : PyRuntime} (lat lng : float)
    (post : string -> upstream) (filter : option string)
    (payload elements : json) (els : list json) :
  post (build_query lat lng (filter_or_default filter)) = Body payload ->
  py_get payload "elements" (JList []) = Ok elements ->
  py_iter elements = Ok els ->
  (List.length (places (nearby lat lng post filter)) <= List.length els)%nat
  /\ forall p, In p (places (nearby lat lng post filter)) ->
       exists el, In el els /\ from_element lat lng el p.
Proof.
  intros Hpost Hget Hiter. unfold nearby.
  change (match filter with Some f => f | None => "all" end)
    with (filter_or_default filter).
  rewrite Hpost. cbn [try_block]. rewrite Hget. cbn [bind]. rewrite Hiter.
  cbn [bind].
  destruct (loop lat lng els ([], [])) as [[all seen]|e] eqn:Hloop;
    cbn [bind fst places].
  - apply loop_from_elements in Hloop as (ps2 & -> & Hlen & Hfrom).
    cbn [app]. split.
    + rewrite length_firstn, (Permutation_length (sort_places_perm ps2)). lia.
    + intros p Hp. apply Hfrom.
      apply (Permutation_in _ (sort_places_perm ps2)).
      eapply firstn_incl. exact Hp.
  - split; [simpl; lia|]. intros p [].
Qed.

(** * Properties of the accounts *)


(** ** Splitting and joining *)

Lemma str_split_cons sep s : exists piece pieces, str_split sep s = piece :: pieces.
Proof.
  destruct s as [|c s]; cbn [str_split]; [eexists _, _; reflexivity|].
  destruct (Ascii.eqb c sep); [eexists _, _; reflexivity|].
  destruct (str_split sep s); eexists _, _; reflexivity.
Qed.

Lemma join_cons sep piece piece' pieces :
  join sep (piece :: piece' :: pieces)
  = piece ++ String sep (join sep (piece' :: pieces)).
Proof. reflexivity. Qed.

Lemma join_split sep s : join sep (str_split sep s) = s.
Proof.
  induction s as [|c s IH]; [reflexivity|]. cbn [str_split].
  destruct (Ascii.eqb c sep) eqn:Hc.
  - apply Ascii.eqb_eq in Hc. subst c.
    destruct (str_split_cons sep s) as (piece & pieces & Hs).
    rewrite Hs in *. rewrite join_cons, IH. reflexivity.
  - destruct (str_split_cons sep s) as (piece & pieces & Hs).
    rewrite Hs in *. destruct pieces as [|piece' pieces].
    + cbn [join] in *. rewrite IH. reflexivity.
    + rewrite join_cons in *. cbn [append]. rewrite IH. reflexivity.
Qed.

Lemma length_str_split sep s :
  List.length (str_split sep s) = S (count_char sep s).
Proof.
  induction s as [|c s IH]; [reflexivity|]. cbn [str_split count_char].
  destruct (Ascii.eqb c sep).
  - cbn [List.length]. rewrite IH. reflexivity.
  - destruct (str_split_cons sep s) as (piece & pieces & Hs).
    rewrite Hs in *. cbn [List.length] in *. rewrite IH. reflexivity.
Qed.

Lemma free_of_app c a b : free_of c (a ++ b) = free_of c a && free_of c b.
Proof.
  induction a as [|x a IH]; [reflexivity|].
  cbn [append free_of]. rewrite IH, andb_assoc. reflexivity.
Qed.

(** The pieces of a split hold no separator, and no character that the
    string does not hold. *)
Lemma str_split_free sep c s :
  (c = sep \/ free_of c s = true) ->
  Forall (fun piece => free_of c piece = true) (str_split sep s).
Proof.
  induction s as [|x s IH]; intros Hc; [repeat constructor|].
  cbn [str_split]. destruct (Ascii.eqb x sep) eqn:Hx.
  - constructor; [reflexivity|]. apply IH.
    destruct Hc as [Hc|Hc]; [left; exact Hc|right].
    cbn [free_of] in Hc. apply andb_true_iff in Hc. apply Hc.
  - assert (Hxc : negb (Ascii.eqb x c) = true /\ (c = sep \/ free_of c s = true)).
    { destruct Hc as [->|Hc].
      - rewrite Hx. split; [reflexivity | left; reflexivity].
      - cbn [free_of] in Hc. apply andb_true_iff in Hc as [H1 H2].
        split; [exact H1 | right; exact H2]. }
    destruct Hxc as [Hxc Hc']. specialize (IH Hc').
    destruct (str_split sep s) as [|piece pieces]; constructor.
    + cbn [free_of]. rewrite Hxc. reflexivity.
    + constructor.
    + cbn [free_of]. rewrite Hxc. inversion IH; assumption.
    + inversion IH; assumption.
Qed.

Lemma str_split_whole sep s : free_of sep s = true -> str_split sep s = [s].
Proof.
  induction s as [|c s IH]; [reflexivity|]. cbn [free_of str_split].
  intros H. apply andb_true_iff in H as [Hc Hs].
  apply negb_true_iff in Hc. rewrite Hc, (IH Hs). reflexivity.
Qed.

Lemma str_split_app sep piece rest :
  free_of sep piece = true ->
  str_split sep (piece ++ String sep rest) = piece :: str_split sep rest.
Proof.
  induction piece as [|c piece IH]; cbn [append free_of str_split].
  - intros _. rewrite Ascii.eqb_refl. reflexivity.
  - intros H. apply andb_true_iff in H as [Hc Hs].
    apply negb_true_iff in Hc. rewrite Hc, (IH Hs). reflexivity.
Qed.

Lemma split_join sep piece pieces :
  Forall (fun p => free_of sep p = true) (piece :: pieces) ->
  str_split sep (join sep (piece :: pieces)) = piece :: pieces.
Proof.
  revert piece. induction pieces as [|piece' pieces IH]; intros piece H.
  - apply str_split_whole. inversion H; assumption.
  - rewrite join_cons. inversion H as [|? ? Hp Hrest]; subst.
    rewrite (str_split_app _ _ _ Hp), (IH _ Hrest). reflexivity.
Qed.

(** ** Emergency contacts *)

Lemma contacts_of_pieces pieces :
  map contact_entry (contacts_of pieces) = filter one_colon pieces.
Proof.
  induction pieces as [|piece pieces IH]; [reflexivity|].
  cbn [contacts_of filter]. unfold one_colon at 1.
  pose proof (length_str_split ":" piece) as Hlen.
  pose proof (join_split ":" piece) as Hjoin.
  destruct (str_split ":" piece) as [|part0 [|part1 [|part2 parts]]];
    cbn [List.length] in Hlen.
  - discriminate.
  - injection Hlen as <-. exact IH.
  - injection Hlen as <-. cbn [Nat.eqb map]. rewrite IH. f_equal. exact Hjoin.
  - injection Hlen as <-. exact IH.
Qed.

Lemma contacts_of_clean pieces :
  Forall (fun piece => free_of "," piece = true) pieces ->
  Forall (fun c => clean_contact c = true) (contacts_of pieces).
Proof.
  induction 1 as [|piece pieces Hp _ IH]; [constructor|].
  cbn [contacts_of].
  pose proof (str_split_free ":" ":" piece (or_introl eq_refl)) as Hcolon.
  pose proof (str_split_free ":" "," piece (or_intror Hp)) as Hcomma.
  destruct (str_split ":" piece) as [|part0 [|part1 [|part2 parts]]]; try exact IH.
  constructor; [|exact IH].
  inversion Hcolon as [|? ? Hc0 Hc]; subst. inversion Hc as [|? ? Hc1 _]; subst.
  inversion Hcomma as [|? ? Hm0 Hm]; subst. inversion Hm as [|? ? Hm1 _]; subst.
  unfold clean_contact. cbn [contact_name number].
  rewrite Hc0, Hc1, Hm0, Hm1. reflexivity.
Qed.

(** The dashboard shows the comma-separated pieces of the stored string
    that hold exactly one colon, in their order, and drops the others;
    no name or number it shows holds a comma or a colon. *)
Theorem parsed_contacts_are_the_wellformed_pieces (s : string) :
  map contact_entry (parse_contacts (Some s)) = filter one_colon (str_split "," s)
  /\ Forall (fun c => clean_contact c = true) (parse_contacts (Some s)).
Proof.
  cbn [parse_contacts]. destruct (String.eqb s "") eqn:Hs.
  - apply String.eqb_eq in Hs. subst s. split; [reflexivity | constructor].
  - split; [apply contacts_of_pieces|].
    apply contacts_of_clean, str_split_free. left. reflexivity.
Qed.

Lemma clean_contact_fields c :
  clean_contact c = true ->
  free_of "," (contact_name c) = true /\ free_of ":" (contact_name c) = true
  /\ free_of "," (number c) = true /\ free_of ":" (number c) = true.
Proof.
  unfold clean_contact. rewrite !andb_true_iff. tauto.
Qed.

Lemma contacts_of_entries cs :
  Forall (fun c => clean_contact c = true) cs ->
  contacts_of (map contact_entry cs) = cs.
Proof.
  induction 1 as [|c cs Hc _ IH]; [reflexivity|].
  apply clean_contact_fields in Hc as (_ & Hn & _ & Hm).
  cbn [map contacts_of]. unfold contact_entry at 1.
  rewrite (str_split_app _ _ _ Hn), (str_split_whole _ _ Hm), IH.
  destruct c; reflexivity.
Qed.

Lemma contact_entry_free c :
  clean_contact c = true -> free_of "," (contact_entry c) = true.
Proof.
  intros Hc. apply clean_contact_fields in Hc as (Hn & _ & Hm & _).
  unfold contact_entry. rewrite free_of_app. cbn [free_of].
  rewrite Hn, Hm. reflexivity.
Qed.

Lemma format_contacts_nonempty c cs :
  String.eqb (format_contacts (c :: cs)) "" = false.
Proof.
  unfold format_contacts. cbn [map].
  assert (H : exists x t, contact_entry c = String x t).
  { unfold contact_entry.
    destruct (contact_name c); cbn [append]; eexists _, _; reflexivity. }
  destruct H as (x & t & ->).
  destruct (map contact_entry cs); reflexivity.
Qed.

(** Contacts stored in the form "Name:Number,Name:Number" are shown as
    they were stored, provided no name and no number holds a comma or a
    colon. *)
Theorem stored_contacts_round_trip (cs : list contact) :
  Forall (fun c => clean_contact c = true) cs ->
  parse_contacts (Some (format_contacts cs)) = cs.
Proof.
  intros Hcs. destruct cs as [|c cs]; [reflexivity|].
  cbn [parse_contacts]. rewrite format_contacts_nonempty.
  unfold format_contacts. cbn [map]. rewrite split_join.
  - apply (contacts_of_entries (c :: cs)), Hcs.
  - change (contact_entry c :: map contact_entry cs)
      with (map contact_entry (c :: cs)).
    rewrite Forall_map. eapply Forall_impl; [|exact Hcs].
    intros a. apply contact_entry_free.
Qed.


(** ** The table *)

Lemma find_app {A : Type} (f : A -> bool) (l1 l2 : list A) :
  find f (l1 ++ l2) = match find f l1 with Some x => Some x | None => find f l2 end.
Proof.
  induction l1 as [|x l1 IH]; [reflexivity|].
  cbn [app find]. destruct (f x); [reflexivity | exact IH].
Qed.

Lemma find_existsb {A : Type} (f : A -> bool) (l : list A) :
  find f l = None -> existsb f l = false.
Proof.
  induction l as [|x l IH]; [reflexivity|].
  cbn [find existsb]. destruct (f x); [discriminate | exact IH].
Qed.

Lemma existsb_find {A : Type} (f : A -> bool) (l : list A) :
  existsb f l = false -> find f l = None.
Proof.
  induction l as [|x l IH]; [reflexivity|].
  cbn [find existsb]. destruct (f x); [discriminate | exact IH].
Qed.

Lemma next_id_above (db : Database.Session) u :
  In u db -> Database.id u < Database.next_id db.
Proof.
  unfold Database.next_id. induction db as [|v db IH]; intros []; cbn [map fold_right].
  - subst v. lia.
  - specialize (IH H). lia.
Qed.

Lemma find_next_id (db : Database.Session) :
  find (fun u => Database.id u =? Database.next_id db) db = None.
Proof.
  destruct (find _ db) as [u|] eqn:Hfind; [|reflexivity].
  apply find_some in Hfind as [Hin Heq].
  apply next_id_above in Hin. lia.
Qed.

Lemma mobile_fresh (db : Database.Session) m :
  existsb (fun u => String.eqb (Database.mobile u) m) db = false ->
  ~ In m (map Database.mobile db).
Proof.
  induction db as [|u db IH]; cbn [existsb map]; [intros _ []|].
  intros H. apply orb_false_iff in H as [Hu Hdb].
  intros [Heq|Hin]; [|exact (IH Hdb Hin)].
  apply String.eqb_neq in Hu. exact (Hu Heq).
Qed.

Ltac create_user_cases H :=
  unfold Database.create_user in H;
  match type of H with
  | context [Database.sqlite_int ?a] =>
      destruct (Database.sqlite_int a) eqn:Hage; cbn [negb] in H;
      [|discriminate H]
  end;
  match type of H with
  | context [existsb ?f ?db] =>
      destruct (existsb f db) eqn:Hfresh; [discriminate H|]
  end.

(** A row that [create_user] returns is found by its mobile number
    and by its id, and the lookups of the other numbers and ids give
    what they gave before. *)
Theorem created_user_is_found (db : Database.Session) (name : string) (age : Z)
    (gender mobile hashed_password category : string)
    (disability_type emergency_contacts : option string)
    (user : Database.User) (db' : Database.Session) :
  Database.create_user db name age gender mobile hashed_password category
    disability_type emergency_contacts = Returns (user, db') ->
  Database.get_user_by_mobile db' mobile = Some user
  /\ (Database.sqlite_int (Database.id user) = true ->
      Database.get_user_by_id db' (Database.id user) = Returns (Some user))
  /\ (forall mobile', mobile' <> mobile ->
        Database.get_user_by_mobile db' mobile'
        = Database.get_user_by_mobile db mobile')
  /\ (forall user_id, user_id <> Database.id user ->
        Database.get_user_by_id db' user_id = Database.get_user_by_id db user_id).
Proof.
  intros H. create_user_cases H. injection H as <- <-.
  unfold Database.get_user_by_mobile, Database.get_user_by_id.
  cbn [Database.id Database.mobile]. repeat split.
  - rewrite find_app, (existsb_find _ _ Hfresh). cbn [find Database.mobile].
    rewrite String.eqb_refl. reflexivity.
  - intros ->. rewrite find_app, find_next_id. cbn [find Database.id].
    rewrite Z.eqb_refl. reflexivity.
  - intros mobile' Hneq. rewrite find_app. cbn [find Database.mobile].
    apply not_eq_sym, String.eqb_neq in Hneq. rewrite Hneq.
    destruct (find _ db); reflexivity.
  - intros user_id Hneq. destruct (Database.sqlite_int user_id); [|reflexivity].
    rewrite find_app. cbn [find Database.id].
    apply not_eq_sym, Z.eqb_neq in Hneq. rewrite Hneq.
    destruct (find _ db); reflexivity.
Qed.

(** ** The invariant of the table *)

Lemma next_id_ok db : db_ok db -> Database.next_id db = Z.of_nat (S (List.length db)).
Proof.
  intros (Hids & _). unfold Database.next_id. rewrite Hids.
  generalize (List.length db). intros n.
  assert (H : fold_right Z.max 0 (map Z.of_nat (seq 1 n)) = Z.of_nat n).
  { induction n as [|n IH]; [reflexivity|].
    rewrite seq_S, map_app, fold_right_app. cbn [map fold_right].
    assert (Hmax : forall l a b, a <= b -> fold_right Z.max a l <= b ->
                     fold_right Z.max b l = b).
    { induction l as [|x l IHl]; intros a b Hab Hl; [reflexivity|].
      cbn [fold_right] in *.
      assert (Hx : fold_right Z.max a l <= fold_right Z.max a l) by lia.
      rewrite (IHl a b Hab) by lia. lia. }
    rewrite (Hmax _ 0) by lia. lia. }
  rewrite H. lia.
Qed.

Lemma db_ok_nil : db_ok [].
Proof. repeat split; constructor. Qed.

Lemma NoDup_snoc {A : Type} (l : list A) x : NoDup l -> ~ In x l -> NoDup (l ++ [x])%list.
Proof.
  intros Hl Hx. apply (Permutation_NoDup (l := x :: l)).
  - apply Permutation_cons_append.
  - constructor; assumption.
Qed.

Lemma db_ok_snoc db user :
  db_ok db ->
  Database.id user = Database.next_id db ->
  ~ In (Database.mobile user) (map Database.mobile db) ->
  Database.sqlite_int (Database.age user) = true ->
  db_ok (db ++ [user])%list.
Proof.
  intros Hok Hid Hm Hage. pose proof (next_id_ok db Hok) as Hnext.
  destruct Hok as (Hids & Hmob & Hages). repeat split.
  - rewrite map_app, length_app, Nat.add_1_r, seq_S, map_app, Hids.
    cbn [map]. rewrite Hid, Hnext. reflexivity.
  - rewrite map_app. apply NoDup_snoc; assumption.
  - apply Forall_app. split; [exact Hages|]. constructor; [exact Hage|constructor].
Qed.

(** ** [signup] and [login] *)

Lemma category_page_valid user :
  str_in (Database.category user) valid_categories = true ->
  category_page user
  = RedirectResponse (category_url (Database.category user) (Database.id user)) 302.
Proof.
  unfold category_page, category_url, str_in, valid_categories.
  cbn [existsb]. rewrite !orb_false_r.
  destruct (String.eqb (Database.category user) "disabled") eqn:H1.
  - apply String.eqb_eq in H1. rewrite H1. reflexivity.
  - destruct (String.eqb (Database.category user) "differently_abled") eqn:H2.
    + apply String.eqb_eq in H2. rewrite H2. reflexivity.
    + cbn [orb]. intros ->. reflexivity.
Qed.

Section Accounts.

Context {bc : Bcrypt}.

Lemma signup_returns db salt name age gender mobile password category
    disability_type emergency_contacts r db' :
  signup db salt name age gender mobile password category
    disability_type emergency_contacts = Returns (r, db') ->
  (db' = db
   /\ ((str_in category valid_categories = false
        /\ r = error_page "signup.html" "Please select a valid category.")
       \/ (Database.get_user_by_mobile db mobile <> None
           /\ r = error_page "signup.html"
                    "Mobile number already registered. Please login.")))
  \/ exists hashed,
       str_in category valid_categories = true
       /\ existsb (fun u => String.eqb (Database.mobile u) mobile) db = false
       /\ hashpw password salt = Ok hashed
       /\ Database.sqlite_int age = true
       /\ db' = (db ++ [new_user db name age gender mobile hashed category
                          disability_type emergency_contacts])%list
       /\ r = RedirectResponse (category_url category (Database.next_id db)) 302.
Proof.
  unfold signup, signup_at. fold valid_categories.
  destruct (str_in category valid_categories) eqn:Hcat; cbn [negb].
  - destruct (Database.get_user_by_mobile db mobile) as [existing|] eqn:Hm.
    + intros [= <- <-]. left. split; [reflexivity|]. right.
      split; [discriminate | reflexivity].
    + destruct (hashpw password salt) as [hashed|e] eqn:Hh;
        cbn [of_result and_then]; [|discriminate].
      destruct (Database.create_user _ _ _ _ _ _ _ _ _) as [[user db1]|x] eqn:Hc;
        cbn [and_then fst snd]; [|discriminate].
      intros [= <- <-]. right. exists hashed.
      create_user_cases Hc. injection Hc as <- <-.
      repeat split; try assumption.
      rewrite category_page_valid by exact Hcat. reflexivity.
  - intros [= <- <-]. left. split; [reflexivity|]. left.
    split; reflexivity.
Qed.

Lemma signup_raises db salt name age gender mobile password category
    disability_type emergency_contacts x :
  signup db salt name age gender mobile password category
    disability_type emergency_contacts = Raises x ->
  (exists e, x = BcryptError e /\ hashpw password salt = Raise e)
  \/ (x = SqliteOverflow /\ Database.sqlite_int age = false).
Proof.
  unfold signup, signup_at.
  destruct (str_in category _); cbn [negb]; [|discriminate].
  destruct (Database.get_user_by_mobile db mobile) as [existing|] eqn:Hm;
    [discriminate|].
  destruct (hashpw password salt) as [hashed|e] eqn:Hh; cbn [of_result and_then].
  - unfold Database.create_user.
    destruct (Database.sqlite_int age); cbn [negb and_then].
    + rewrite (find_existsb _ _ Hm). cbn [and_then]. discriminate.
    + intros [= <-]. right. split; reflexivity.
  - intros [= <-]. left. exists e. split; reflexivity.
Qed.

End Accounts.

(** Every outcome of [signup], whatever is posted and whatever other
    requests write between its lookup and its insert. It returns an
    error page, and writes nothing, for a category that is none of the
    three or a mobile number that a row has at the lookup; it redirects,
    with status 302, after adding to the table of the insert the row
    with the next id, the posted fields and the hash of the password, to
    [/senior/<id>] when the category is "senior" and to [/disabled/<id>]
    otherwise; it raises what [bcrypt.hashpw] raises, or the overflow of
    the driver for an age that has more than 64 bits; it raises the
    integrity error of the unique [mobile] only when a row with the
    posted number is absent at the lookup and present at the insert: a
    request that runs alone never raises it. *)
Theorem signup_outcomes {bc : Bcrypt} (db db_insert : Database.Session)
    (salt name : string) (age : Z) (gender mobile password category : string)
    (disability_type emergency_contacts : option string) :
  match signup_at db db_insert salt name age gender mobile password category
          disability_type emergency_contacts with
  | Returns (TemplateResponse template context, db') =>
      db' = db
      /\ ((str_in category valid_categories = false
           /\ TemplateResponse template context
              = error_page "signup.html" "Please select a valid category.")
          \/ (Database.get_user_by_mobile db mobile <> None
              /\ TemplateResponse template context
                 = error_page "signup.html"
                     "Mobile number already registered. Please login."))
  | Returns (RedirectResponse url status_code, db') =>
      exists hashed,
        hashpw password salt = Ok hashed
        /\ str_in category valid_categories = true
        /\ Database.get_user_by_mobile db mobile = None
        /\ Database.get_user_by_mobile db_insert mobile = None
        /\ db' = (db_insert
                  ++ [new_user db_insert name age gender mobile hashed category
                        disability_type emergency_contacts])%list
        /\ url = category_url category (Database.next_id db_insert)
        /\ status_code = 302
  | Raises (BcryptError e) => hashpw password salt = Raise e
  | Raises SqliteOverflow => Database.sqlite_int age = false
  | Raises (IntegrityError _) =>
      Database.get_user_by_mobile db mobile = None
      /\ Database.get_user_by_mobile db_insert mobile <> None
  | Raises (HTTPException _ _) => False
  end
  /\ forall detail,
       signup db salt name age gender mobile password category
         disability_type emergency_contacts
       <> Raises (IntegrityError detail).
Proof.
  split.
  - unfold signup_at. fold valid_categories.
    destruct (str_in category valid_categories) eqn:Hcat; cbn [negb].
    + destruct (Database.get_user_by_mobile db mobile) as [existing|] eqn:Hm.
      * split; [reflexivity|]. right. split; [discriminate | reflexivity].
      * destruct (hashpw password salt) as [hashed|e] eqn:Hh;
          cbn [of_result and_then]; [|reflexivity].
        unfold Database.create_user.
        destruct (Database.sqlite_int age) eqn:Ha; cbn [negb and_then];
          [|reflexivity].
        destruct (existsb _ db_insert) eqn:Hex; cbn [and_then fst snd].
        -- split; [reflexivity|]. intros Hn.
           apply find_existsb in Hn. congruence.
        -- rewrite category_page_valid by exact Hcat.
           exists hashed. repeat split. apply existsb_find, Hex.
    + split; [reflexivity|]. left. split; reflexivity.
  - intros detail H. apply signup_raises in H as [(e & He & _)|[He _]];
      discriminate.
Qed.

(** [signup] keeps the table well formed: on a table whose ids are
    1, ..., n, whose mobile numbers differ and whose ages the driver
    could bind, whatever [signup] returns leaves such a table. *)
Theorem signup_keeps_table_well_formed {bc : Bcrypt} (db : Database.Session)
    (salt name : string) (age : Z) (gender mobile password category : string)
    (disability_type emergency_contacts : option string)
    (r : page_response) (db' : Database.Session) :
  db_ok db ->
  signup db salt name age gender mobile password category
    disability_type emergency_contacts = Returns (r, db') ->
  db_ok db'.
Proof.
  intros Hok H. apply signup_returns in H
    as [[-> _]|(hashed & _ & Hm & _ & Ha & -> & _)]; [exact Hok|].
  apply db_ok_snoc; [exact Hok | reflexivity | | exact Ha].
  apply mobile_fresh, Hm.
Qed.

Lemma get_new_user db name age gender mobile hashed category dt ec :
  existsb (fun u => String.eqb (Database.mobile u) mobile) db = false ->
  Database.get_user_by_mobile
    (db ++ [new_user db name age gender mobile hashed category dt ec])%list mobile
  = Some (new_user db name age gender mobile hashed category dt ec).
Proof.
  intros Hm. unfold Database.get_user_by_mobile.
  rewrite find_app, (existsb_find _ _ Hm). cbn [find new_user Database.mobile].
  rewrite String.eqb_refl. reflexivity.
Qed.

(** After a [signup] that redirects, [login] with the same mobile
    number and password gives the same redirect. *)
Theorem signup_then_login {bc : Bcrypt} (db : Database.Session)
    (salt name : string) (age : Z) (gender mobile password category : string)
    (disability_type emergency_contacts : option string)
    (url : string) (status_code : Z) (db' : Database.Session) :
  bcrypt_law bc ->
  signup db salt name age gender mobile password category
    disability_type emergency_contacts
  = Returns (RedirectResponse url status_code, db') ->
  login db' mobile password = Returns (RedirectResponse url status_code).
Proof.
  intros Hlaw H. apply signup_returns in H
    as [[_ [[_ Hr]|[_ Hr]]]|(hashed & Hc & Hm & Hh & _ & -> & Hr)];
    try discriminate Hr.
  unfold login. rewrite (get_new_user _ _ _ _ _ _ _ _ _ Hm).
  cbn [new_user Database.password]. rewrite (Hlaw _ _ _ Hh).
  cbn [of_result and_then negb].
  rewrite category_page_valid by exact Hc. rewrite Hr. reflexivity.
Qed.

(** The redirect of [signup] leads to a page that opens: the page of
    the new row. *)
Theorem signup_redirect_opens {bc : Bcrypt} (db : Database.Session)
    (salt name : string) (age : Z) (gender mobile password category : string)
    (disability_type emergency_contacts : option string)
    (url : string) (status_code : Z) (db' : Database.Session) :
  Database.sqlite_int (Database.next_id db) = true ->
  signup db salt name age gender mobile password category
    disability_type emergency_contacts
  = Returns (RedirectResponse url status_code, db') ->
  exists user,
    Database.get_user_by_mobile db' mobile = Some user
    /\ ((category = "senior"
         /\ url = "/senior/" ++ str_int (Database.id user)
         /\ senior db' (Database.id user)
            = Returns (TemplateResponse "senior.html"
                         [("request", CtxRequest); ("user", CtxUser user)]))
        \/ (category <> "senior"
            /\ url = "/disabled/" ++ str_int (Database.id user)
            /\ disabled db' (Database.id user)
               = Returns (TemplateResponse "disabled.html"
                            [("request", CtxRequest); ("user", CtxUser user);
                             ("disability_type", ctx_opt disability_type)]))).
Proof.
  intros Hid H. apply signup_returns in H
    as [[_ [[_ Hr]|[_ Hr]]]|(hashed & Hc & Hm & Hh & _ & -> & Hr)];
    try discriminate Hr.
  injection Hr as -> ->.
  exists (new_user db name age gender mobile hashed category
            disability_type emergency_contacts).
  split; [apply get_new_user, Hm|].
  assert (Hfind : Database.get_user_by_id
                    (db ++ [new_user db name age gender mobile hashed category
                              disability_type emergency_contacts])%list
                    (Database.next_id db)
                  = Returns (Some (new_user db name age gender mobile hashed
                                     category disability_type emergency_contacts))).
  { unfold Database.get_user_by_id. rewrite Hid, find_app, find_next_id.
    cbn [find new_user Database.id]. rewrite Z.eqb_refl. reflexivity. }
  unfold category_url, senior, disabled. cbn [new_user Database.id].
  rewrite Hfind. cbn [and_then Database.disability_type].
  destruct (String.eqb category "senior") eqn:Hs.
  - left. apply String.eqb_eq in Hs. repeat split. exact Hs.
  - right. apply String.eqb_neq in Hs. repeat split. exact Hs.
Qed.

(** [login] redirects only for a row with the posted mobile number
    whose stored hash the posted password checks against, and then to
    the page of that row's category. *)
Theorem login_redirects_only_on_match {bc : Bcrypt} (db : Database.Session)
    (mobile password url : string) (status_code : Z) :
  login db mobile password = Returns (RedirectResponse url status_code) ->
  exists user,
    In user db
    /\ Database.mobile user = mobile
    /\ checkpw password (Database.password user) = Ok true
    /\ category_page user = RedirectResponse url status_code.
Proof.
  unfold login.
  destruct (Database.get_user_by_mobile db mobile) as [user|] eqn:Hm;
    [|discriminate].
  destruct (checkpw password (Database.password user)) as [[|]|e] eqn:Hc;
    cbn [of_result and_then negb]; try discriminate.
  intros [= H]. apply find_some in Hm as [Hin Heq].
  apply String.eqb_eq in Heq. exists user. repeat split; assumption.
Qed.

(** ** The pages of a user *)

Lemma find_by_id db user_id :
  db_ok db ->
  if known_id db user_id
  then exists user, In user db /\ Database.id user = user_id
         /\ find (fun u => Database.id u =? user_id) db = Some user
  else find (fun u => Database.id u =? user_id) db = None.
Proof.
  intros (Hids & _). unfold known_id.
  assert (Hin : In user_id (map Database.id db)
                <-> 1 <= user_id <= Z.of_nat (List.length db)).
  { rewrite Hids, in_map_iff. split.
    - intros (j & <- & Hj). apply in_seq in Hj. lia.
    - intros Hr. exists (Z.to_nat user_id). split; [lia|]. apply in_seq. lia. }
  destruct (find _ db) as [user|] eqn:Hfind.
  - apply find_some in Hfind as [Hu Heq]. apply Z.eqb_eq in Heq.
    assert (Hr : 1 <= user_id <= Z.of_nat (List.length db)).
    { apply Hin. rewrite <- Heq. apply in_map, Hu. }
    replace ((1 <=? user_id) && (user_id <=? Z.of_nat (List.length db)))
      with true by (symmetry; apply andb_true_iff; split; lia).
    exists user. repeat split; assumption.
  - destruct ((1 <=? user_id) && (user_id <=? Z.of_nat (List.length db))) eqn:Hr;
      [|reflexivity].
    apply andb_true_iff in Hr as [H1 H2].
    assert (Hr : In user_id (map Database.id db)) by (apply Hin; lia).
    apply in_map_iff in Hr as (u & Hu & Hudb).
    apply (find_none _ _ Hfind) in Hudb. cbn beta in Hudb. lia.
Qed.

(** On a well-formed table of [n] rows the three pages of an id are
    those of a row with that id when the id is one of 1, ..., [n], with
    the contacts parsed from that row; for any other id of at most 64
    bits each raises the 404 "User not found"; for an id of more bits
    each raises the overflow of the driver, not the 404. *)
Theorem pages_by_id (db : Database.Session) (user_id : Z) :
  db_ok db ->
  if negb (Database.sqlite_int user_id) then
    dashboard db user_id = Raises SqliteOverflow
    /\ disabled db user_id = Raises SqliteOverflow
    /\ senior db user_id = Raises SqliteOverflow
  else if known_id db user_id then
    exists user,
      In user db /\ Database.id user = user_id
      /\ dashboard db user_id
         = Returns (TemplateResponse "dashboard.html"
                      [("request", CtxRequest); ("user", CtxUser user);
                       ("emergency_contacts",
                        CtxContacts
                          (parse_contacts (Database.emergency_contacts user)))])
      /\ disabled db user_id
         = Returns (TemplateResponse "disabled.html"
                      [("request", CtxRequest); ("user", CtxUser user);
                       ("disability_type",
                        ctx_opt (Database.disability_type user))])
      /\ senior db user_id
         = Returns (TemplateResponse "senior.html"
                      [("request", CtxRequest); ("user", CtxUser user)])
  else
    dashboard db user_id = Raises user_not_found
    /\ disabled db user_id = Raises user_not_found
    /\ senior db user_id = Raises user_not_found.
Proof.
  intros Hok. pose proof (find_by_id db user_id Hok) as Hfind.
  unfold dashboard, disabled, senior, Database.get_user_by_id.
  destruct (Database.sqlite_int user_id); cbn [negb and_then];
    [|repeat split].
  destruct (known_id db user_id).
  - destruct Hfind as (user & Hin & Hid & ->).
    exists user. repeat split; assumption.
  - rewrite Hfind. repeat split.
Qed.

(** ** Instances *)

Lemma plain_bcrypt_law : bcrypt_law plain_bcrypt.
Proof.
  intros pw salt hashed [= <-]. cbn [checkpw plain_bcrypt].
  rewrite String.eqb_refl. reflexivity.
Qed.

Lemma asha_ok : db_ok [asha].
Proof.
  repeat split.
  - repeat constructor. intros [].
  - repeat constructor.
Qed.

Lemma places_come_from_elements_witness :
  (List.length
     (places (nearby (rt := reference_runtime) bangalore_lat bangalore_lng
                (fun _ => Body (JDict [("elements", JList [far_node])])) None))
   <= 1)%nat
  /\ forall p,
       In p (places (nearby (rt := reference_runtime) bangalore_lat bangalore_lng
                       (fun _ => Body (JDict [("elements", JList [far_node])]))
                       None)) ->
       exists el, In el [far_node]
                  /\ from_element (rt := reference_runtime)
                       bangalore_lat bangalore_lng el p.
Proof.
  exact (places_come_from_elements (rt := reference_runtime)
           bangalore_lat bangalore_lng
           (fun _ => Body (JDict [("elements", JList [far_node])])) None
           (JDict [("elements", JList [far_node])]) (JList [far_node]) [far_node]
           eq_refl eq_refl eq_refl).
Defined.

Lemma stored_contacts_round_trip_witness :
  format_contacts [ravi; meena] = "Ravi:9876543210,Meena:100"
  /\ parse_contacts (Some (format_contacts [ravi; meena])) = [ravi; meena].
Proof.
  split; [reflexivity|].
  apply (stored_contacts_round_trip [ravi; meena]).
  repeat constructor.
Defined.

Lemma created_user_is_found_witness :
  Database.create_user [asha] "Bala" 34 "male" "9000000002" "pw"
    "differently_abled" (Some "wheelchair") None
  = Returns (bala, [asha; bala])
  /\ Database.get_user_by_mobile [asha; bala] "9000000002" = Some bala.
Proof.
  split; [reflexivity|].
  exact (proj1 (created_user_is_found [asha] "Bala" 34 "male" "9000000002" "pw"
                  "differently_abled" (Some "wheelchair") None bala [asha; bala]
                  eq_refl)).
Defined.

Lemma signup_keeps_table_well_formed_witness :
  signup (bc := plain_bcrypt) [asha] "salt" "Bala" 34 "male" "9000000002" "pw"
    "differently_abled" (Some "wheelchair") None
  = Returns (RedirectResponse "/disabled/2" 302, [asha; bala])
  /\ db_ok [asha; bala].
Proof.
  split; [reflexivity|].
  exact (signup_keeps_table_well_formed (bc := plain_bcrypt) [asha] "salt" "Bala"
           34 "male" "9000000002" "pw" "differently_abled" (Some "wheelchair")
           None _ _ asha_ok eq_refl).
Defined.

Lemma signup_then_login_witness :
  login (bc := plain_bcrypt) [asha; bala] "9000000002" "pw"
  = Returns (RedirectResponse "/disabled/2" 302).
Proof.
  exact (signup_then_login (bc := plain_bcrypt) [asha] "salt" "Bala" 34 "male"
           "9000000002" "pw" "differently_abled" (Some "wheelchair") None
           "/disabled/2" 302 [asha; bala] plain_bcrypt_law eq_refl).
Defined.

Lemma signup_redirect_opens_witness :
  exists user,
    Database.get_user_by_mobile [asha; bala] "9000000002" = Some user
    /\ (("differently_abled" = "senior"
         /\ "/disabled/2" = "/senior/" ++ str_int (Database.id user)
         /\ senior [asha; bala] (Database.id user)
            = Returns (TemplateResponse "senior.html"
                         [("request", CtxRequest); ("user", CtxUser user)]))
        \/ ("differently_abled" <> "senior"
            /\ "/disabled/2" = "/disabled/" ++ str_int (Database.id user)
            /\ disabled [asha; bala] (Database.id user)
               = Returns (TemplateResponse "disabled.html"
                            [("request", CtxRequest); ("user", CtxUser user);
                             ("disability_type", ctx_opt (Some "wheelchair"))]))).
Proof.
  exact (signup_redirect_opens (bc := plain_bcrypt) [asha] "salt" "Bala" 34 "male"
           "9000000002" "pw" "differently_abled" (Some "wheelchair") None
           "/disabled/2" 302 [asha; bala] eq_refl eq_refl).
Defined.

Lemma login_redirects_only_on_match_witness :
  exists user,
    In user [asha]
    /\ Database.mobile user = "9000000001"
    /\ checkpw (Bcrypt := plain_bcrypt) "secret" (Database.password user) = Ok true
    /\ category_page user = RedirectResponse "/senior/1" 302.
Proof.
  exact (login_redirects_only_on_match (bc := plain_bcrypt) [asha] "9000000001"
           "secret" "/senior/1" 302 eq_refl).
Defined.

Lemma pages_by_id_witness :
  exists user,
    In user [asha] /\ Database.id user = 1
    /\ dashboard [asha] 1
       = Returns (TemplateResponse "dashboard.html"
                    [("request", CtxRequest); ("user", CtxUser user);
                     ("emergency_contacts",
                      CtxContacts
                        (parse_contacts (Database.emergency_contacts user)))])
    /\ disabled [asha] 1
       = Returns (TemplateResponse "disabled.html"
                    [("request", CtxRequest); ("user", CtxUser user);
                     ("disability_type", ctx_opt (Database.disability_type user))])
    /\ senior [asha] 1
       = Returns (TemplateResponse "senior.html"
                    [("request", CtxRequest); ("user", CtxUser user)]).
Proof.
  exact (pages_by_id [asha] 1 asha_ok).
Defined.
